(** * The NL2SQL agent pipeline of [agent.py]

    A shallow embedding of the four LangGraph nodes ([get_schema],
    [generate_sql], [execute_sql], [generate_answer]), of the graph built by
    [get_compiled_app] and of the entry point [run_agent_graph], together
    with the properties of the error-propagation design.

    Conventions of the embedding
    - a Python [str] is a [string] whose characters are the code points
      below 256; [None] and [str] are the only values a state field holds;
    - the state and the update returned by a node are Python dicts with
      string keys: [gmap string pyval];
    - a node is a computation in a state-and-exception monad: the state is
      the outside world (database server, LLM endpoint) and the lines
      written by [print]; an exception aborts the computation unless a
      [try]/[except Exception] catches it;
    - the database and the LLM are external: they are taken as an arbitrary
      [Externals] structure, every call of which, the construction of the
      LLM client included, may succeed or raise depending on the current
      world. *)

From Stdlib Require Import String Ascii.
From stdpp Require Import base option list strings gmap.

Local Open Scope string_scope.

(** ** Python strings *)

Module Str.

Definition nl : string := String (ascii_of_nat 10) EmptyString.
Definition dquote : string := String (ascii_of_nat 34) EmptyString.
Definition squote : string := String (ascii_of_nat 39) EmptyString.

(** [str.isspace] on one character, for the code points below 256:
    TAB, LF, VT, FF, CR, the separators FS, GS, RS, US, the space,
    NEL (0x85) and the no-break space (0xA0). *)
Definition isspace (c : ascii) : bool :=
  let n := nat_of_ascii c in
  (((9 <=? n) && (n <=? 13)) || ((28 <=? n) && (n <=? 32))
   || (n =? 133) || (n =? 160))%nat.

Fixpoint lstrip (s : string) : string :=
  match s with
  | EmptyString => EmptyString
  | String c r => if isspace c then lstrip r else s
  end.

Fixpoint rstrip (s : string) : string :=
  match s with
  | EmptyString => EmptyString
  | String c r =>
      match rstrip r with
      | EmptyString => if isspace c then EmptyString else String c EmptyString
      | r' => String c r'
      end
  end.

(** [s.strip()] *)
Definition strip (s : string) : string := rstrip (lstrip s).

(** [s[n:]] for [0 <= n] *)
Fixpoint drop (n : nat) (s : string) : string :=
  match n, s with
  | S n', String _ r => drop n' r
  | _, _ => s
  end.

(** [s[:n]] for [0 <= n] *)
Fixpoint take (n : nat) (s : string) : string :=
  match n, s with
  | S n', String c r => String c (take n' r)
  | _, _ => EmptyString
  end.

(** [s[:-n]]: the end index [len(s) - n] is clamped at 0. *)
Definition drop_last (n : nat) (s : string) : string :=
  take (String.length s - n) s.

(** [s.startswith(p)] *)
Fixpoint startswith (s p : string) {struct p} : bool :=
  match p, s with
  | EmptyString, _ => true
  | String a p', String b s' => Ascii.eqb a b && startswith s' p'
  | String _ _, EmptyString => false
  end.

(** [s.endswith(p)] *)
Definition endswith (s p : string) : bool :=
  (String.length p <=? String.length s)%nat
  && String.eqb (drop (String.length s - String.length p) s) p.

(** [sub in s] *)
Fixpoint contains (s sub : string) : bool :=
  startswith s sub
  || match s with
     | EmptyString => false
     | String _ r => contains r sub
     end.

End Str.

(** The clean-up of the raw LLM response in [generate_sql] (the four
    statements between [llm.invoke] and the [return] of the [try] block). *)
Definition postprocess_sql (content : string) : string :=
  let sql_query := Str.strip content in
  let sql_query :=
    if Str.startswith sql_query "```sql" then Str.drop 6 sql_query
    else sql_query in
  let sql_query :=
    if Str.endswith sql_query "```" then Str.drop_last 3 sql_query
    else sql_query in
  Str.strip sql_query.


(** ** Python values, exceptions and dicts *)

(** The values a field of [AgentState] holds: a [str], or [None]. *)
Inductive pyval : Type :=
| PNone
| PStr (s : string).

(** Truth value of an object, as tested by [if state.get("error")]. *)
Definition truthy (v : pyval) : bool :=
  match v with
  | PNone => false
  | PStr s => negb (String.eqb s EmptyString)
  end.

(** A value interpolated in an f-string: [format(v, '')], that is [str(v)]. *)
Definition format_value (v : pyval) : string :=
  match v with
  | PNone => "None"
  | PStr s => s
  end.

(** The exceptions of class [Exception] the program meets: the [KeyError]
    of a subscript on a missing key, and the errors raised by the
    libraries, kept as the text [str(e)] gives. *)
Inductive exn : Type :=
| KeyError (key : string)
| Error (msg : string).

(** [str(e)]; the [str] of a [KeyError] is the [repr] of its key. *)
Definition exn_str (e : exn) : string :=
  match e with
  | KeyError key => Str.squote ++ key ++ Str.squote
  | Error msg => msg
  end.

(** [AgentState]: the state dict, with the fields [question], [db_uri],
    [schema], [sql_query], [sql_result], [answer] and [error]; a field that
    was never written is absent. *)
Abbreviation AgentState := (gmap string pyval).

(** [state.get(key)] *)
Definition dict_get (state : AgentState) (key : string) : pyval :=
  default PNone (state !! key).

(** [state.get(key, dflt)] *)
Definition dict_get_default
    (state : gmap string pyval) (key : string) (dflt : pyval) : pyval :=
  default dflt (state !! key).

(** A LangGraph state with plain (last-value) channels: every key of the
    update returned by a node overwrites the field, [None] included. *)
Definition apply_update (state : AgentState) (update : gmap string pyval)
  : AgentState := update ∪ state.

(** ** The external collaborators *)

(** The database library and the LLM library.  Each call runs in the
    current [world], may change it, and returns or raises; this holds of
    the construction of the LLM client too, which raises for instance
    when no API key is configured. *)
Record Externals : Type := {
  world : Type;
  database : Type;
  rows : Type;
  chat_model : Type;
  (** [SQLDatabase.from_uri(uri)] *)
  SQLDatabase_from_uri : pyval -> world -> (exn + database) * world;
  (** [db.get_table_info()] *)
  db_get_table_info : database -> world -> (exn + string) * world;
  (** [db.run(command)] *)
  db_run : database -> pyval -> world -> (exn + rows) * world;
  (** [str(result)] *)
  rows_str : rows -> string;
  (** [ChatGroq(temperature=..., model_name=...)] *)
  ChatGroq : Z -> string -> world -> (exn + chat_model) * world;
  (** [llm.invoke(prompt).content] *)
  llm_invoke : chat_model -> string -> world -> (exn + string) * world
}.
Existing Class Externals.

(** ** The monad of node computations *)

Inductive outcome (A : Type) : Type :=
| Return (a : A)
| Raise (e : exn).
Arguments Return {A} a.
Arguments Raise {A} e.

Section Agent.

Context {E : Externals}.

Record sys : Type := {
  outside : world E;
  stdout : list string
}.

Definition M (A : Type) : Type := sys -> outcome A * sys.

#[export] Instance M_ret : MRet M := fun A a σ => (Return a, σ).

#[export] Instance M_bind : MBind M := fun A B f m σ =>
  match m σ with
  | (Return a, σ') => f a σ'
  | (Raise e, σ') => (Raise e, σ')
  end.

Definition raise {A : Type} (e : exn) : M A := fun σ => (Raise e, σ).

(** [try: body  except Exception as e: handler(e)] *)
Definition try_except {A : Type} (body : M A) (handler : exn -> M A) : M A :=
  fun σ =>
    match body σ with
    | (Return a, σ') => (Return a, σ')
    | (Raise e, σ') => handler e σ'
    end.

(** The system after one more line on the standard output. *)
Definition logged (line : string) (σ : sys) : sys :=
  {| outside := outside σ; stdout := (stdout σ ++ [line])%list |}.

(** [print(line)] *)
Definition print (line : string) : M unit := fun σ => (Return tt, logged line σ).

(** A call of an external operation. *)
Definition call {A : Type} (op : world E -> (exn + A) * world E) : M A :=
  fun σ =>
    match op (outside σ) with
    | (inr a, w) => (Return a, {| outside := w; stdout := stdout σ |})
    | (inl e, w) => (Raise e, {| outside := w; stdout := stdout σ |})
    end.

(** [state[key]] *)
Definition getitem (state : AgentState) (key : string) : M pyval :=
  match state !! key with
  | Some v => mret v
  | None => raise (KeyError key)
  end.

(** ** The nodes *)

(** [ChatGroq(temperature=0, model_name="llama-3.3-70b-versatile")], as
    [generate_sql] and [generate_answer] both write it. *)
Definition new_llm : M (chat_model E) :=
  call (ChatGroq E 0 "llama-3.3-70b-versatile").

(** The [try] block of [get_schema]. *)
Definition get_schema_try (state : AgentState)
  : M (gmap string pyval) :=
  db_uri ← getitem state "db_uri";
  db ← call (SQLDatabase_from_uri E db_uri);
  schema ← call (db_get_table_info E db);
  mret {[ "schema" := PStr schema; "error" := PNone ]}.

Definition get_schema (state : AgentState) : M (gmap string pyval) :=
  print "---(Node: get_schema)---";;
  try_except (get_schema_try state) (fun e =>
    print ("Error getting schema: " ++ exn_str e);;
    mret {[ "error" := PStr ("Error getting schema: " ++ exn_str e) ]}).

(** The f-string of [generate_sql]. *)
Definition generate_sql_prompt (schema question : pyval) : string :=
  Str.nl
  ++ "    Based on the database schema below, write a single, syntactically correct PostgreSQL query" ++ Str.nl
  ++ "    to answer the following question. Do not explain the query, just return the SQL." ++ Str.nl
  ++ "    Schema:" ++ Str.nl
  ++ "    " ++ format_value schema ++ Str.nl
  ++ "    Question:" ++ Str.nl
  ++ "    " ++ format_value question ++ Str.nl
  ++ "    SQL Query:" ++ Str.nl
  ++ "    ".

(** The [try] block of [generate_sql]. *)
Definition generate_sql_try (llm : chat_model E) (prompt : string)
  : M (gmap string pyval) :=
  content ← call (llm_invoke E llm prompt);
  mret {[ "sql_query" := PStr (postprocess_sql content); "error" := PNone ]}.

Definition generate_sql (state : AgentState) : M (gmap string pyval) :=
  print "---(Node: generate_sql)---";;
  if truthy (dict_get state "error") then mret ∅ else
  llm ← new_llm;
  schema ← getitem state "schema";
  question ← getitem state "question";
  let prompt := generate_sql_prompt schema question in
  try_except (generate_sql_try llm prompt) (fun e =>
    print ("Error generating SQL: " ++ exn_str e);;
    mret {[ "error" := PStr ("Error generating SQL: " ++ exn_str e) ]}).

(** The [try] block of [execute_sql]. *)
Definition execute_sql_try (state : AgentState)
  : M (gmap string pyval) :=
  db_uri ← getitem state "db_uri";
  db ← call (SQLDatabase_from_uri E db_uri);
  sql_query ← getitem state "sql_query";
  result ← call (db_run E db sql_query);
  mret {[ "sql_result" := PStr (rows_str E result); "error" := PNone ]}.

(** The message built by the [except] clause of [execute_sql]. *)
Definition execute_sql_error (e : exn) (sql_query : pyval) : string :=
  "Error executing SQL: " ++ exn_str e
  ++ ". Check your query: " ++ format_value sql_query.

Definition execute_sql (state : AgentState) : M (gmap string pyval) :=
  print "---(Node: execute_sql)---";;
  if truthy (dict_get state "error") then mret ∅ else
  try_except (execute_sql_try state) (fun e =>
    print ("Error executing SQL: " ++ exn_str e);;
    sql_query ← getitem state "sql_query";
    mret {[ "error" := PStr (execute_sql_error e sql_query) ]}).

(** The two f-strings of [generate_answer]. *)
Definition error_prompt (question error : pyval) : string :=
  Str.nl
  ++ "        An error occurred trying to answer the question: "
  ++ Str.dquote ++ format_value question ++ Str.dquote ++ Str.nl
  ++ "        The error was:" ++ Str.nl
  ++ "        " ++ format_value error ++ Str.nl
  ++ "        Please explain this error to the user in a helpful, friendly way." ++ Str.nl
  ++ "        ".

Definition result_prompt (question sql_query sql_result : pyval) : string :=
  Str.nl
  ++ "        The user asked: "
  ++ Str.dquote ++ format_value question ++ Str.dquote ++ Str.nl
  ++ "        We ran the SQL query: "
  ++ Str.dquote ++ format_value sql_query ++ Str.dquote ++ Str.nl
  ++ "        And got this result: "
  ++ Str.dquote ++ format_value sql_result ++ Str.dquote ++ Str.nl
  ++ "        Please provide a concise, natural language answer to the user" ++ Str.nl
  ++ "        based on this information." ++ Str.nl
  ++ "        ".

(** The [if]/[else] of [generate_answer] that builds [prompt]. *)
Definition generate_answer_prompt (state : AgentState) : M string :=
  if truthy (dict_get state "error") then
    question ← getitem state "question";
    error ← getitem state "error";
    mret (error_prompt question error)
  else
    question ← getitem state "question";
    sql_query ← getitem state "sql_query";
    sql_result ← getitem state "sql_result";
    mret (result_prompt question sql_query sql_result).

Definition generate_answer (state : AgentState)
  : M (gmap string pyval) :=
  print "---(Node: generate_answer)---";;
  prompt ← generate_answer_prompt state;
  llm ← new_llm;
  content ← call (llm_invoke E llm prompt);
  mret {[ "answer" := PStr content ]}.

(** ** The graph *)

(** [StateGraph(AgentState)] restricted to what the program uses: named
    nodes, an entry point and unconditional edges.  The engine is
    modelled for graphs in which a node has at most one outgoing edge:
    it runs the current node, merges the update into the state and
    follows the edge, until [END] or a node without successor.  A walk
    longer than the recursion limit, an undeclared node and a missing
    entry point are errors of the library, whose wording is not modelled;
    none of them occurs on the graph of [get_compiled_app]. *)
Record StateGraph : Type := {
  nodes : list (string * (gmap string pyval -> M (gmap string pyval)));
  entry_point : option string;
  edges : list (string * string)
}.

Definition END : string := "__end__".

Definition new_graph : StateGraph :=
  {| nodes := []; entry_point := None; edges := [] |}.

Definition add_node (name : string)
    (action : gmap string pyval -> M (gmap string pyval))
    (g : StateGraph) : StateGraph :=
  {| nodes := (nodes g ++ [(name, action)])%list;
     entry_point := entry_point g;
     edges := edges g |}.

Definition set_entry_point (name : string) (g : StateGraph) : StateGraph :=
  {| nodes := nodes g; entry_point := Some name; edges := edges g |}.

Definition add_edge (src dst : string) (g : StateGraph) : StateGraph :=
  {| nodes := nodes g;
     entry_point := entry_point g;
     edges := (edges g ++ [(src, dst)])%list |}.

Fixpoint assoc {A : Type} (key : string) (l : list (string * A)) : option A :=
  match l with
  | [] => None
  | (k, a) :: l' => if String.eqb k key then Some a else assoc key l'
  end.

(** LangGraph's default [recursion_limit]. *)
Definition recursion_limit : nat := 25.

Fixpoint run_from (limit : nat) (g : StateGraph) (current : string)
    (state : gmap string pyval) : M (gmap string pyval) :=
  if String.eqb current END then mret state else
  match limit with
  | O => raise (Error "GraphRecursionError")
  | S limit' =>
      match assoc current (nodes g) with
      | None => raise (Error "unknown node")
      | Some action =>
          update ← action state;
          let state' := apply_update state update in
          match assoc current (edges g) with
          | Some next => run_from limit' g next state'
          | None => mret state'
          end
      end
  end.

(** [app.invoke(initial_state)] *)
Definition invoke (g : StateGraph) (initial_state : gmap string pyval)
  : M (gmap string pyval) :=
  match entry_point g with
  | Some start => run_from recursion_limit g start initial_state
  | None => raise (Error "no entry point")
  end.

Definition get_compiled_app : StateGraph :=
  let workflow := new_graph in
  let workflow := add_node "get_schema" get_schema workflow in
  let workflow := add_node "generate_sql" generate_sql workflow in
  let workflow := add_node "execute_sql" execute_sql workflow in
  let workflow := add_node "generate_answer" generate_answer workflow in
  let workflow := set_entry_point "get_schema" workflow in
  let workflow := add_edge "get_schema" "generate_sql" workflow in
  let workflow := add_edge "generate_sql" "execute_sql" workflow in
  let workflow := add_edge "execute_sql" "generate_answer" workflow in
  let workflow := add_edge "generate_answer" END workflow in
  workflow.

Definition fallback_answer : string :=
  "I'm sorry, I encountered an error and couldn't process your request.".

Definition initial_state (question db_uri : string) : AgentState :=
  {[ "question" := PStr question; "db_uri" := PStr db_uri ]}.

Definition run_agent_graph (question db_uri : string) : M pyval :=
  let app := get_compiled_app in
  final_state ← invoke app (initial_state question db_uri);
  mret (dict_get_default final_state "answer" (PStr fallback_answer)).

(** ** Vocabulary of the properties *)

(** Running a sequence of nodes, each on the state updated by the one
    before: what the engine does along a chain of edges. *)
Fixpoint run_nodes
    (l : list (gmap string pyval -> M (gmap string pyval)))
    (state : gmap string pyval) : M (gmap string pyval) :=
  match l with
  | [] => mret state
  | action :: l' =>
      update ← action state;
      run_nodes l' (apply_update state update)
  end.

(** The nodes in the order of the edges of [get_compiled_app]. *)
Definition pipeline_nodes
  : list (gmap string pyval -> M (gmap string pyval)) :=
  [get_schema; generate_sql; execute_sql; generate_answer].

(** How many times a node was entered, read off the line each node prints
    when it starts. *)
Definition entries (name : string) (σ : sys) : nat :=
  count_occ string_dec (stdout σ) ("---(Node: " ++ name ++ ")---").

End Agent.


(** ** A scripted outside world

    One concrete [Externals], in which the outcome of every call is read
    off a script: whether the database accepts the connection, what the
    schema and the query return, whether the LLM client can be built, and
    the successive answers of the LLM.
    It gives the concrete runs on which the properties are exhibited. *)

Record script : Type := {
  connection : option exn;
  table_info : exn + string;
  query_result : exn + string;
  client : option exn;
  replies : list (exn + string)
}.

Definition next_reply (w : script) : (exn + string) * script :=
  match replies w with
  | [] => (inl (Error "no reply"), w)
  | r :: rs =>
      (r, {| connection := connection w;
             table_info := table_info w;
             query_result := query_result w;
             client := client w;
             replies := rs |})
  end.

Definition scripted : Externals := {|
  world := script;
  database := unit;
  rows := string;
  chat_model := unit;
  SQLDatabase_from_uri := fun _ w =>
    (match connection w with Some e => inl e | None => inr tt end, w);
  db_get_table_info := fun _ w => (table_info w, w);
  db_run := fun _ _ w => (query_result w, w);
  rows_str := fun r => r;
  ChatGroq := fun _ _ w =>
    (match client w with Some e => inl e | None => inr tt end, w);
  llm_invoke := fun _ _ w => next_reply w
|}.

(** The database refuses the connection; the LLM then explains. *)
Definition refused : script := {|
  connection := Some (Error "connection refused");
  table_info := inr "CREATE TABLE users (id INTEGER)";
  query_result := inr "[(3,)]";
  client := None;
  replies := [inr "The database could not be reached."]
|}.

(** The schema is read, the LLM fails on the SQL and answers afterwards. *)
Definition llm_down : script := {|
  connection := None;
  table_info := inr "CREATE TABLE users (id INTEGER)";
  query_result := inr "[(3,)]";
  client := None;
  replies := [inl (Error "rate limit"); inr "The model was unavailable."]
|}.

(** The LLM writes a query on a column that does not exist. *)
Definition bad_query : script := {|
  connection := None;
  table_info := inr "CREATE TABLE users (id INTEGER)";
  query_result := inl (Error "column age does not exist");
  client := None;
  replies := [inr "SELECT age FROM users;"; inr "There is no such column."]
|}.

(** Everything succeeds. *)
Definition all_good : script := {|
  connection := None;
  table_info := inr "CREATE TABLE users (id INTEGER)";
  query_result := inr "[(3,)]";
  client := None;
  replies := [inr "SELECT COUNT(*) FROM users;"; inr "There are 3 users."]
|}.

(** The first three nodes succeed and the LLM fails on the answer. *)
Definition answer_down : script := {|
  connection := None;
  table_info := inr "CREATE TABLE users (id INTEGER)";
  query_result := inr "[(3,)]";
  client := None;
  replies := [inr "SELECT COUNT(*) FROM users;"; inl (Error "rate limit")]
|}.

(** The database answers, and no API key is configured: the LLM client
    cannot be built. *)
Definition no_api_key : script := {|
  connection := None;
  table_info := inr "CREATE TABLE users (id INTEGER)";
  query_result := inr "[(3,)]";
  client := Some (Error "The api_key client option must be set");
  replies := [inr "SELECT COUNT(*) FROM users;"; inr "There are 3 users."]
|}.

Definition boot (w : script) : @sys scripted :=
  {| outside := (w : world scripted); stdout := [] |}.



(** * Properties *)

(** ** Stripping and slicing *)

Module StrFacts.
Import Str.

Lemma lstrip_head s :
  lstrip s = EmptyString \/
  exists c r, lstrip s = String c r /\ isspace c = false.
Proof.
  induction s as [|c r IH]; simpl; [by left|].
  destruct (isspace c) eqn:Hc; [exact IH|].
  right. by exists c, r.
Qed.

Lemma rstrip_cons c r :
  rstrip (String c r) = EmptyString \/
  rstrip (String c r) = String c (rstrip r).
Proof.
  simpl. destruct (rstrip r); [|by right].
  destruct (isspace c); [by left|by right].
Qed.

Lemma rstrip_cons_nonspace c r :
  isspace c = false -> rstrip (String c r) = String c (rstrip r).
Proof.
  intros Hc. simpl. destruct (rstrip r); [|done]. by rewrite Hc.
Qed.

Lemma rstrip_idem s : rstrip (rstrip s) = rstrip s.
Proof.
  induction s as [|c r IH]; [done|].
  simpl. destruct (rstrip r) as [|d r'] eqn:Hr.
  - destruct (isspace c) eqn:Hc; [done|]. simpl. by rewrite Hc.
  - change (rstrip (String c (String d r')) = String c (String d r')).
    remember (String d r') as t. simpl. rewrite IH. by subst t.
Qed.

Lemma lstrip_rstrip_lstrip s : lstrip (rstrip (lstrip s)) = rstrip (lstrip s).
Proof.
  destruct (lstrip_head s) as [->|(c & r & -> & Hc)]; [done|].
  rewrite (rstrip_cons_nonspace _ _ Hc). simpl. by rewrite Hc.
Qed.

Lemma strip_idem s : strip (strip s) = strip s.
Proof.
  unfold strip. by rewrite lstrip_rstrip_lstrip, rstrip_idem.
Qed.

Lemma length_lstrip s : String.length (lstrip s) <= String.length s.
Proof.
  induction s as [|c r IH]; simpl; [lia|].
  destruct (isspace c); simpl; lia.
Qed.

Lemma length_rstrip s : String.length (rstrip s) <= String.length s.
Proof.
  induction s as [|c r IH]; [simpl; lia|].
  destruct (rstrip_cons c r) as [->| ->]; simpl; lia.
Qed.

Lemma length_strip s : String.length (strip s) <= String.length s.
Proof.
  unfold strip. pose proof (length_rstrip (lstrip s)).
  pose proof (length_lstrip s). lia.
Qed.

Lemma length_drop n s : String.length (drop n s) = String.length s - n.
Proof.
  revert s. induction n as [|n IH]; intros [|c r]; simpl; try lia.
  apply IH.
Qed.

Lemma length_take n s : String.length (take n s) = n `min` String.length s.
Proof.
  revert s. induction n as [|n IH]; intros [|c r]; simpl; try lia.
  by rewrite IH.
Qed.

Lemma startswith_length s p :
  startswith s p = true -> String.length p <= String.length s.
Proof.
  revert s. induction p as [|a p IH]; intros [|b s]; simpl; try lia; try done.
  intros [_ H]%andb_prop. apply IH in H. lia.
Qed.

Lemma endswith_length s p :
  endswith s p = true -> String.length p <= String.length s.
Proof.
  unfold endswith. intros [H _]%andb_prop. by apply Nat.leb_le.
Qed.

Lemma startswith_refl p : startswith p p = true.
Proof.
  induction p as [|a p IH]; [done|]. simpl. by rewrite Ascii.eqb_refl.
Qed.

Lemma startswith_empty_l p s :
  startswith s p = false -> startswith EmptyString p = false.
Proof. destruct p; [by destruct s|done]. Qed.

Lemma startswith_rstrip s p :
  startswith (rstrip s) p = true -> startswith s p = true.
Proof.
  revert p. induction s as [|c r IH]; intros p; [done|].
  destruct p as [|a p]; [done|].
  destruct (rstrip_cons c r) as [->| ->]; [done|].
  simpl. intros [Ha H]%andb_prop. rewrite Ha. by apply IH.
Qed.

Lemma contains_tail c r sub :
  contains (String c r) sub = false -> contains r sub = false.
Proof. simpl. by intros [_ H]%orb_false_elim. Qed.

Lemma contains_head s sub :
  contains s sub = false -> startswith s sub = false.
Proof. destruct s; simpl; by intros [H _]%orb_false_elim. Qed.

Lemma contains_lstrip s sub :
  contains s sub = false -> contains (lstrip s) sub = false.
Proof.
  induction s as [|c r IH]; [done|]. intros H.
  simpl lstrip. destruct (isspace c); [|done].
  apply IH. by apply contains_tail in H.
Qed.

Lemma contains_rstrip s sub :
  contains s sub = false -> contains (rstrip s) sub = false.
Proof.
  induction s as [|c r IH]; [done|]. intros H.
  pose proof (contains_head _ _ H) as Hh.
  destruct (rstrip_cons c r) as [E|E].
  - rewrite E. simpl. rewrite orb_false_r. by eapply startswith_empty_l.
  - destruct (startswith (rstrip (String c r)) sub) eqn:Hs.
    { apply startswith_rstrip in Hs. congruence. }
    rewrite E in *. simpl. simpl in Hs. rewrite Hs. simpl.
    apply IH. by apply contains_tail in H.
Qed.

Lemma contains_strip s sub :
  contains s sub = false -> contains (strip s) sub = false.
Proof. intros H. by apply contains_rstrip, contains_lstrip. Qed.

Lemma contains_drop n s sub :
  contains (drop n s) sub = true -> contains s sub = true.
Proof.
  revert s. induction n as [|n IH]; intros [|c r]; simpl; try done.
  intros H. apply IH in H. rewrite H. apply orb_true_r.
Qed.

Lemma startswith_contains s sub :
  startswith s sub = true -> contains s sub = true.
Proof. intros H. destruct s; cbn [contains]; by rewrite H. Qed.

Lemma endswith_contains s sub :
  endswith s sub = true -> contains s sub = true.
Proof.
  unfold endswith. intros [_ H]%andb_prop. apply String.eqb_eq in H.
  eapply contains_drop. rewrite H. apply startswith_contains, startswith_refl.
Qed.

Lemma startswith_trans s p q :
  startswith p q = true -> startswith s p = true -> startswith s q = true.
Proof.
  revert s p. induction q as [|a q IH]; intros s p; [done|].
  destruct p as [|b p]; [done|].
  destruct s as [|c s]; [cbn [startswith]; congruence|].
  cbn [startswith]. intros [Hab Hpq]%andb_prop [Hbc Hsp]%andb_prop.
  apply Ascii.eqb_eq in Hab, Hbc. subst. rewrite Ascii.eqb_refl.
  by apply (IH s p).
Qed.

Lemma startswith_opener_fence s :
  startswith s "```sql" = true -> startswith s "```" = true.
Proof. by apply startswith_trans. Qed.

Lemma app_cons c s t : String c s ++ t = String c (s ++ t).
Proof. reflexivity. Qed.

Lemma startswith_app s t : startswith (s ++ t) s = true.
Proof.
  induction s as [|c s IH]; [done|].
  rewrite app_cons. cbn [startswith]. by rewrite Ascii.eqb_refl.
Qed.

Lemma contains_app_r s t sub :
  contains t sub = true -> contains (s ++ t) sub = true.
Proof.
  intros H. induction s as [|c s IH]; [done|].
  rewrite app_cons. cbn [contains]. rewrite IH. apply orb_true_r.
Qed.

(** A string assembled as [before ++ part ++ after] contains [part]. *)
Lemma contains_infix before part after :
  contains (before ++ part ++ after) part = true.
Proof. apply contains_app_r, startswith_contains, startswith_app. Qed.

Lemma contains_suffix before part :
  contains (before ++ part) part = true.
Proof. apply contains_app_r, startswith_contains, startswith_refl. Qed.

End StrFacts.

(** ** The clean-up of the LLM response *)

Section Postprocess.
Import Str StrFacts.

Lemma strip_postprocess_sql s : strip (postprocess_sql s) = postprocess_sql s.
Proof. unfold postprocess_sql. apply strip_idem. Qed.

(** A stripped string that carries no opener and no closer is left alone. *)
Lemma postprocess_sql_fixed x :
  strip x = x ->
  startswith x "```sql" = false ->
  endswith x "```" = false ->
  postprocess_sql x = x.
Proof.
  intros Hx Ho Hc. unfold postprocess_sql. rewrite Hx, Ho, Hc. exact Hx.
Qed.

(** Removing an opener or a closer makes the string shorter. *)
Lemma postprocess_sql_shrinks x :
  strip x = x ->
  startswith x "```sql" = true \/ endswith x "```" = true ->
  String.length (postprocess_sql x) < String.length x.
Proof.
  intros Hx H. unfold postprocess_sql, drop_last. rewrite Hx.
  destruct (startswith x "```sql") eqn:Ho.
  - apply startswith_length in Ho. simpl in Ho.
    pose proof (length_drop 6 x) as Hd.
    destruct (endswith (drop 6 x) "```").
    + pose proof (length_strip
                    (take (String.length (drop 6 x) - 3) (drop 6 x))) as Hs.
      rewrite length_take in Hs. lia.
    + pose proof (length_strip (drop 6 x)). lia.
  - destruct H as [H|H]; [done|]. rewrite H.
    apply endswith_length in H. simpl in H.
    pose proof (length_strip (take (String.length x - 3) x)) as Hs.
    rewrite length_take in Hs. lia.
Qed.

Lemma postprocess_sql_no_fence s :
  contains s "```" = false -> postprocess_sql s = strip s.
Proof.
  intros H. apply (contains_strip _ _) in H.
  rewrite <- (strip_idem s) at 1.
  unfold postprocess_sql at 1. rewrite (strip_idem s).
  destruct (startswith (strip s) "```sql") eqn:Ho.
  { apply startswith_opener_fence, startswith_contains in Ho. congruence. }
  destruct (endswith (strip s) "```") eqn:Hc.
  { apply endswith_contains in Hc. congruence. }
  apply strip_idem.
Qed.

(** C3: the fenced response [```sql / SELECT 1; / ```] is cleaned to
    [SELECT 1;], and a response that contains no code fence comes out as
    the response with its surrounding whitespace trimmed. *)
Theorem postprocess_sql_spec :
  postprocess_sql ("```sql" ++ nl ++ "SELECT 1;" ++ nl ++ "```") = "SELECT 1;"
  /\ forall s, contains s "```" = false -> postprocess_sql s = strip s.
Proof.
  split; [by vm_compute|]. exact postprocess_sql_no_fence.
Qed.

Lemma postprocess_sql_spec_witness :
  contains ("  SELECT name FROM users; " ++ nl) "```" = false
  /\ postprocess_sql ("  SELECT name FROM users; " ++ nl)
     = "SELECT name FROM users;".
Proof.
  split; [by vm_compute|].
  rewrite (proj2 postprocess_sql_spec); by vm_compute.
Defined.

(** C4, as stated, fails: a response fenced twice loses one layer of
    fencing at each application, so the second application still changes
    the text. *)
Lemma postprocess_sql_not_idempotent :
  ~ (forall s, postprocess_sql (postprocess_sql s) = postprocess_sql s).
Proof.
  intros H.
  specialize (H ("```sql" ++ nl ++ "```sql" ++ nl ++ "SELECT 1;"
                 ++ nl ++ "```" ++ nl ++ "```")).
  vm_compute in H. discriminate H.
Qed.

(** C4, amended: the clean-up applied twice equals the clean-up applied
    once exactly when the cleaned text does not itself begin with the
    opener [```sql] or end with the closer [```]. *)
Theorem postprocess_sql_idempotent_iff s :
  postprocess_sql (postprocess_sql s) = postprocess_sql s
  <-> startswith (postprocess_sql s) "```sql" = false
      /\ endswith (postprocess_sql s) "```" = false.
Proof.
  split.
  - intros Heq.
    destruct (startswith (postprocess_sql s) "```sql") eqn:Ho;
      [|destruct (endswith (postprocess_sql s) "```") eqn:Hc; [|done]].
    all: pose proof (postprocess_sql_shrinks (postprocess_sql s)
                       (strip_postprocess_sql s)) as Hlt.
    all: rewrite Heq in Hlt.
    + specialize (Hlt (or_introl Ho)). lia.
    + specialize (Hlt (or_intror Hc)). lia.
  - intros [Ho Hc].
    apply postprocess_sql_fixed; [apply strip_postprocess_sql|done..].
Qed.

Lemma postprocess_sql_idempotent_iff_witness :
  let s := "```sql" ++ nl ++ "SELECT 1;" ++ nl ++ "```" in
  (startswith (postprocess_sql s) "```sql" = false
   /\ endswith (postprocess_sql s) "```" = false)
  /\ postprocess_sql (postprocess_sql s) = postprocess_sql s.
Proof.
  intros s.
  assert (H : startswith (postprocess_sql s) "```sql" = false
              /\ endswith (postprocess_sql s) "```" = false)
    by (split; vm_compute; reflexivity).
  split; [exact H|].
  exact (proj2 (postprocess_sql_idempotent_iff s) H).
Defined.

(** Responses without any code fence are among the inputs on which the
    clean-up is idempotent. *)
Lemma postprocess_sql_idempotent_no_fence s :
  contains s "```" = false ->
  postprocess_sql (postprocess_sql s) = postprocess_sql s.
Proof.
  intros H. rewrite (postprocess_sql_no_fence s H).
  rewrite postprocess_sql_no_fence by by apply contains_strip.
  apply strip_idem.
Qed.

End Postprocess.

(** ** The nodes, one at a time *)

Ltac unfold_run :=
  unfold new_llm in *;
  unfold getitem, print, call, raise, try_except in *;
  unfold mbind, M_bind, mret, M_ret in *.

Ltac run_cases :=
  unfold_run; repeat case_match; intros; simplify_eq/=; eauto.

Section Nodes.
Context {E : Externals}.
Implicit Types (state update : gmap string pyval) (σ : sys) (e : exn).

Lemma run_bind {A B} (m : M A) (f : A -> M B) σ :
  (m ≫= f) σ =
  match m σ with
  | (Return a, σ') => f a σ'
  | (Raise e, σ') => (Raise e, σ')
  end.
Proof. reflexivity. Qed.

Lemma truthy_get_is_Some state key :
  truthy (dict_get state key) = true -> is_Some (state !! key).
Proof. unfold dict_get. destruct (state !! key); [eauto|done]. Qed.

Lemma apply_update_empty state : apply_update state ∅ = state.
Proof. unfold apply_update. apply (left_id_L ∅ (∪)). Qed.

Lemma apply_update_set state update key v :
  update !! key = Some v -> apply_update state update !! key = Some v.
Proof. intros H. unfold apply_update. by apply lookup_union_Some_l. Qed.

Lemma apply_update_unset state update key :
  update !! key = None -> apply_update state update !! key = state !! key.
Proof. intros H. unfold apply_update. by apply lookup_union_r. Qed.

(** *** Standard output *)

Lemma entries_logged name line σ :
  entries name (logged line σ)
  = entries name σ
    + (if string_dec line ("---(Node: " ++ name ++ ")---") then 1 else 0).
Proof.
  unfold entries, logged. simpl. rewrite count_occ_app. simpl.
  destruct (string_dec line _); reflexivity.
Qed.

Lemma stdout_get_schema_try state σ r σ' :
  get_schema_try state σ = (r, σ') -> stdout σ' = stdout σ.
Proof. unfold get_schema_try. run_cases. Qed.

Lemma stdout_generate_sql_try llm prompt σ r σ' :
  generate_sql_try llm prompt σ = (r, σ') -> stdout σ' = stdout σ.
Proof. unfold generate_sql_try. run_cases. Qed.

Lemma stdout_execute_sql_try state σ r σ' :
  execute_sql_try state σ = (r, σ') -> stdout σ' = stdout σ.
Proof. unfold execute_sql_try. run_cases. Qed.

(** *** [get_schema] *)

Lemma get_schema_run state σ :
  get_schema state σ =
  match get_schema_try state (logged "---(Node: get_schema)---" σ) with
  | (Return update, σ') => (Return update, σ')
  | (Raise e, σ') =>
      (Return {[ "error" := PStr ("Error getting schema: " ++ exn_str e) ]},
       logged ("Error getting schema: " ++ exn_str e) σ')
  end.
Proof. reflexivity. Qed.

Lemma get_schema_try_update state σ update σ' :
  get_schema_try state σ = (Return update, σ') ->
  exists schema, update = {[ "schema" := PStr schema; "error" := PNone ]}.
Proof. unfold get_schema_try. run_cases. Qed.

(** *** [generate_sql] *)

Lemma generate_sql_skip state σ :
  truthy (dict_get state "error") = true ->
  generate_sql state σ = (Return ∅, logged "---(Node: generate_sql)---" σ).
Proof. intros H. unfold generate_sql. unfold_run. by rewrite H. Qed.

(** The client cannot be built: the exception leaves the node. *)
Lemma generate_sql_no_client state σ e w :
  truthy (dict_get state "error") = false ->
  ChatGroq E 0 "llama-3.3-70b-versatile" (outside σ) = (inl e, w) ->
  generate_sql state σ
  = (Raise e, logged "---(Node: generate_sql)---"
                {| outside := w; stdout := stdout σ |}).
Proof.
  intros H Hc. unfold generate_sql. unfold_run. rewrite H. cbn [outside logged].
  by rewrite Hc.
Qed.

Lemma generate_sql_run state σ llm w schema question :
  truthy (dict_get state "error") = false ->
  ChatGroq E 0 "llama-3.3-70b-versatile" (outside σ) = (inr llm, w) ->
  state !! "schema" = Some schema ->
  state !! "question" = Some question ->
  generate_sql state σ =
  match generate_sql_try llm (generate_sql_prompt schema question)
          (logged "---(Node: generate_sql)---"
             {| outside := w; stdout := stdout σ |}) with
  | (Return update, σ') => (Return update, σ')
  | (Raise e, σ') =>
      (Return {[ "error" := PStr ("Error generating SQL: " ++ exn_str e) ]},
       logged ("Error generating SQL: " ++ exn_str e) σ')
  end.
Proof.
  intros H Hc Hs Hq. unfold generate_sql. unfold_run.
  rewrite H. cbn [outside logged]. by rewrite Hc, Hs, Hq.
Qed.

Lemma generate_sql_try_update llm prompt σ update σ' :
  generate_sql_try llm prompt σ = (Return update, σ') ->
  exists content,
    update = {[ "sql_query" := PStr (postprocess_sql content);
                "error" := PNone ]}.
Proof. unfold generate_sql_try. run_cases. Qed.

(** *** [execute_sql] *)

Lemma execute_sql_skip state σ :
  truthy (dict_get state "error") = true ->
  execute_sql state σ = (Return ∅, logged "---(Node: execute_sql)---" σ).
Proof. intros H. unfold execute_sql. unfold_run. by rewrite H. Qed.

Lemma execute_sql_run state σ sql_query :
  truthy (dict_get state "error") = false ->
  state !! "sql_query" = Some sql_query ->
  execute_sql state σ =
  match execute_sql_try state (logged "---(Node: execute_sql)---" σ) with
  | (Return update, σ') => (Return update, σ')
  | (Raise e, σ') =>
      (Return {[ "error" := PStr (execute_sql_error e sql_query) ]},
       logged ("Error executing SQL: " ++ exn_str e) σ')
  end.
Proof.
  intros H Hq. unfold execute_sql. unfold_run. rewrite H, Hq.
  by repeat case_match.
Qed.

Lemma execute_sql_try_update state σ update σ' :
  execute_sql_try state σ = (Return update, σ') ->
  exists result,
    update = {[ "sql_result" := PStr (rows_str E result); "error" := PNone ]}.
Proof. unfold execute_sql_try. run_cases. Qed.

(** *** [generate_answer] *)

Lemma generate_answer_prompt_error state question σ :
  truthy (dict_get state "error") = true ->
  state !! "question" = Some question ->
  generate_answer_prompt state σ
  = (Return (error_prompt question (dict_get state "error")), σ).
Proof.
  intros H Hq. unfold generate_answer_prompt. rewrite H.
  destruct (truthy_get_is_Some _ _ H) as [v Hv].
  unfold_run. unfold dict_get. by rewrite Hq, Hv.
Qed.


Lemma generate_answer_run state σ prompt :
  generate_answer_prompt state (logged "---(Node: generate_answer)---" σ)
  = (Return prompt, logged "---(Node: generate_answer)---" σ) ->
  generate_answer state σ =
  match ChatGroq E 0 "llama-3.3-70b-versatile" (outside σ) with
  | (inl e, w) =>
      (Raise e,
       logged "---(Node: generate_answer)---"
         {| outside := w; stdout := stdout σ |})
  | (inr llm, w1) =>
      match llm_invoke E llm prompt w1 with
      | (inr content, w) =>
          (Return {[ "answer" := PStr content ]},
           logged "---(Node: generate_answer)---"
             {| outside := w; stdout := stdout σ |})
      | (inl e, w) =>
          (Raise e,
           logged "---(Node: generate_answer)---"
             {| outside := w; stdout := stdout σ |})
      end
  end.
Proof.
  intros H. unfold generate_answer. unfold_run. rewrite H. simpl.
  destruct (ChatGroq E 0 _ (outside σ)) as [[?|llm] w1]; [done|]. simpl.
  by destruct (llm_invoke E llm prompt w1) as [[?|?] ?].
Qed.

(** Whenever [generate_answer] returns, its update is the [answer] field
    alone, holding a [str]. *)
Lemma generate_answer_update state σ update σ' :
  generate_answer state σ = (Return update, σ') ->
  exists content, update = {[ "answer" := PStr content ]}.
Proof. unfold generate_answer. run_cases. Qed.

End Nodes.

(** ** The pipeline *)

Section Pipeline.
Context {E : Externals}.
Implicit Types (state update : gmap string pyval) (σ : sys) (e : exn).

(** The engine, on the graph of [get_compiled_app], runs the four nodes in
    the order of the edges. *)
Lemma invoke_get_compiled_app state :
  invoke get_compiled_app state = run_nodes pipeline_nodes state.
Proof. reflexivity. Qed.

Lemma run_nodes_app l1 l2 state σ :
  run_nodes (l1 ++ l2)%list state σ =
  match run_nodes l1 state σ with
  | (Return state', σ') => run_nodes l2 state' σ'
  | (Raise e, σ') => (Raise e, σ')
  end.
Proof.
  revert state σ. induction l1 as [|f l1 IH]; intros state σ; [done|].
  cbn [run_nodes app]. rewrite !run_bind.
  destruct (f state σ) as [[u|e] σ']; [apply IH|done].
Qed.

Lemma run_first_three state σ0 u1 σ1 u2 σ2 u3 σ3 :
  get_schema state σ0 = (Return u1, σ1) ->
  generate_sql (apply_update state u1) σ1 = (Return u2, σ2) ->
  execute_sql (apply_update (apply_update state u1) u2) σ2 = (Return u3, σ3) ->
  run_nodes [get_schema; generate_sql; execute_sql] state σ0
  = (Return (apply_update (apply_update (apply_update state u1) u2) u3), σ3).
Proof.
  intros R1 R2 R3. cbn [run_nodes].
  rewrite run_bind, R1, run_bind, R2, run_bind, R3. reflexivity.
Qed.

(** The engine runs [generate_answer] on what the first three nodes
    return, and stops where one of them raises. *)
Lemma invoke_after_three state σ0 :
  invoke get_compiled_app state σ0 =
  match run_nodes [get_schema; generate_sql; execute_sql] state σ0 with
  | (Return s3, σ3) =>
      (u4 ← generate_answer s3; mret (apply_update s3 u4)) σ3
  | (Raise e, σ') => (Raise e, σ')
  end.
Proof.
  rewrite invoke_get_compiled_app.
  change pipeline_nodes
    with ([get_schema; generate_sql; execute_sql] ++ [generate_answer])%list.
  rewrite run_nodes_app.
  by destruct (run_nodes [get_schema; generate_sql; execute_sql] state σ0)
    as [[s3|e] σ3].
Qed.

(** The ways the first three nodes can go, with the update each returns:
    the connection fails; the LLM client cannot be built, and
    [generate_sql] raises; the LLM fails; the query fails; all three
    succeed. *)
Lemma pipeline_scenarios question db_uri σ0 :
  let s0 := initial_state question db_uri in
  exists u1 σ1,
    get_schema s0 σ0 = (Return u1, σ1)
    /\ ((exists e σ2 σ3,
           u1 = {[ "error" := PStr ("Error getting schema: " ++ exn_str e) ]}
           /\ generate_sql (apply_update s0 u1) σ1 = (Return ∅, σ2)
           /\ execute_sql (apply_update s0 u1) σ2 = (Return ∅, σ3))
        \/ (exists schema,
             u1 = {[ "schema" := PStr schema; "error" := PNone ]}
             /\ ((exists e σ2,
                    generate_sql (apply_update s0 u1) σ1 = (Raise e, σ2))
                 \/ (exists u2 σ2 u3 σ3,
                      generate_sql (apply_update s0 u1) σ1 = (Return u2, σ2)
                      /\ execute_sql (apply_update (apply_update s0 u1) u2) σ2
                         = (Return u3, σ3)
                      /\ ((exists e,
                             u2 = {[ "error" :=
                                       PStr ("Error generating SQL: "
                                             ++ exn_str e) ]}
                             /\ u3 = ∅)
                          \/ (exists content,
                               u2 = {[ "sql_query" :=
                                         PStr (postprocess_sql content);
                                       "error" := PNone ]}
                               /\ ((exists e,
                                      u3 = {[ "error" :=
                                                PStr (execute_sql_error e
                                                       (PStr (postprocess_sql
                                                                content))) ]})
                                   \/ (exists result,
                                        u3 = {[ "sql_result" :=
                                                  PStr (rows_str E result);
                                                "error" := PNone ]})))))))).
Proof.
  intros s0. pose proof (get_schema_run s0 σ0) as R1.
  destruct (get_schema_try s0 _) as [[u1|e1] σ1] eqn:H1.
  2:{ eexists _, _. split; [exact R1|]. left. eexists e1, _, _.
      split; [done|]. split; [by apply generate_sql_skip|].
      by apply execute_sql_skip. }
  destruct (get_schema_try_update _ _ _ _ H1) as [schema ->].
  exists {[ "schema" := PStr schema; "error" := PNone ]}, σ1.
  split; [exact R1|]. right. exists schema. split; [done|].
  destruct (ChatGroq E 0 "llama-3.3-70b-versatile" (outside σ1))
    as [[e|llm] w1] eqn:Hc.
  { left. eexists e, _. by apply generate_sql_no_client. }
  right.
  pose proof (generate_sql_run
                (apply_update s0 {[ "schema" := PStr schema; "error" := PNone ]})
                σ1 llm w1 (PStr schema) (PStr question)
                eq_refl Hc eq_refl eq_refl) as R2.
  destruct (generate_sql_try llm _ _) as [[u2|e2] σ2] eqn:H2.
  2:{ eexists _, _, ∅, _. split; [exact R2|].
      split; [by apply execute_sql_skip|]. left. by exists e2. }
  destruct (generate_sql_try_update _ _ _ _ _ H2) as [content ->].
  pose proof (execute_sql_run
                (apply_update
                   (apply_update s0
                      {[ "schema" := PStr schema; "error" := PNone ]})
                   {[ "sql_query" := PStr (postprocess_sql content);
                      "error" := PNone ]})
                σ2 (PStr (postprocess_sql content)) eq_refl eq_refl) as R3.
  destruct (execute_sql_try _ _) as [[u3|e3] σ3] eqn:H3.
  - destruct (execute_sql_try_update _ _ _ _ H3) as [result ->].
    eexists _, _, _, _. do 2 (split; [eassumption|]).
    right. exists content. split; [done|]. right. by exists result.
  - eexists _, _, _, _. do 2 (split; [eassumption|]).
    right. exists content. split; [done|]. left. by exists e3.
Qed.

(** *** How often each node is entered *)

Ltac count_lines :=
  unfold entries, logged; cbn [stdout];
  rewrite ?count_occ_app; cbn [count_occ];
  repeat match goal with
         | |- context [string_dec ?a ?b] =>
             destruct (string_dec a b) as [Hq|Hq];
             [try discriminate Hq; clear Hq
             |try (exfalso; apply Hq; reflexivity); clear Hq]
         end;
  lia.

Lemma entries_after_get_schema state σ r σ' :
  get_schema state σ = (r, σ') ->
  entries "get_schema" σ' = S (entries "get_schema" σ)
  /\ entries "generate_sql" σ' = entries "generate_sql" σ
  /\ entries "execute_sql" σ' = entries "execute_sql" σ
  /\ entries "generate_answer" σ' = entries "generate_answer" σ.
Proof.
  rewrite get_schema_run.
  destruct (get_schema_try state _) as [[u|e] τ] eqn:H.
  all: apply stdout_get_schema_try in H.
  all: intros [= <- <-]; unfold entries in *; cbn [logged stdout] in *.
  all: rewrite H; repeat split; count_lines.
Qed.

Lemma entries_after_generate_sql state σ r σ' :
  generate_sql state σ = (r, σ') ->
  entries "get_schema" σ' = entries "get_schema" σ
  /\ entries "generate_sql" σ' = S (entries "generate_sql" σ)
  /\ entries "execute_sql" σ' = entries "execute_sql" σ
  /\ entries "generate_answer" σ' = entries "generate_answer" σ.
Proof.
  unfold generate_sql, generate_sql_try. run_cases; repeat split; count_lines.
Qed.

Lemma entries_after_execute_sql state σ r σ' :
  execute_sql state σ = (r, σ') ->
  entries "get_schema" σ' = entries "get_schema" σ
  /\ entries "generate_sql" σ' = entries "generate_sql" σ
  /\ entries "execute_sql" σ' = S (entries "execute_sql" σ)
  /\ entries "generate_answer" σ' = entries "generate_answer" σ.
Proof.
  unfold execute_sql, execute_sql_try. run_cases; repeat split; count_lines.
Qed.

Lemma entries_after_generate_answer state σ r σ' :
  generate_answer state σ = (r, σ') ->
  entries "get_schema" σ' = entries "get_schema" σ
  /\ entries "generate_sql" σ' = entries "generate_sql" σ
  /\ entries "execute_sql" σ' = entries "execute_sql" σ
  /\ entries "generate_answer" σ' = S (entries "generate_answer" σ).
Proof.
  unfold generate_answer, generate_answer_prompt.
  run_cases; repeat split; count_lines.
Qed.

(** The run when the schema is read and the LLM client cannot be built. *)
Lemma run_without_client question db_uri σ0 schema σ1 e w :
  let s0 := initial_state question db_uri in
  let s1 := apply_update s0 {[ "schema" := PStr schema; "error" := PNone ]} in
  let σ2 := logged "---(Node: generate_sql)---"
              {| outside := w; stdout := stdout σ1 |} in
  get_schema_try s0 (logged "---(Node: get_schema)---" σ0)
  = (Return {[ "schema" := PStr schema; "error" := PNone ]}, σ1) ->
  ChatGroq E 0 "llama-3.3-70b-versatile" (outside σ1) = (inl e, w) ->
  get_schema s0 σ0
  = (Return {[ "schema" := PStr schema; "error" := PNone ]}, σ1)
  /\ generate_sql s1 σ1 = (Raise e, σ2)
  /\ run_nodes [get_schema; generate_sql; execute_sql] s0 σ0 = (Raise e, σ2)
  /\ invoke get_compiled_app s0 σ0 = (Raise e, σ2)
  /\ run_agent_graph question db_uri σ0 = (Raise e, σ2).
Proof.
  intros s0 s1 σ2 H1 Hc.
  assert (R1 : get_schema s0 σ0
               = (Return {[ "schema" := PStr schema; "error" := PNone ]}, σ1))
    by by rewrite get_schema_run, H1.
  assert (R2 : generate_sql s1 σ1 = (Raise e, σ2))
    by by apply generate_sql_no_client.
  assert (R : run_nodes [get_schema; generate_sql; execute_sql] s0 σ0
              = (Raise e, σ2)).
  { cbn [run_nodes]. rewrite run_bind, R1. fold s1. by rewrite run_bind, R2. }
  assert (Hinv : invoke get_compiled_app s0 σ0 = (Raise e, σ2))
    by by rewrite invoke_after_three, R.
  do 4 (split; [done|]).
  unfold run_agent_graph. fold s0. by rewrite run_bind, Hinv.
Qed.

End Pipeline.
(** ** The run, from the entry point *)

Section Run.
Context {E : Externals}.
Implicit Types (state update : gmap string pyval) (σ : sys) (e : exn).

(** C1, where the code departs from it.  [generate_sql] builds the LLM
    client before its [try] block.  In a run whose schema has been read,
    when the client cannot be built the node fails without setting
    [error]: it raises, the first three nodes return no state, and
    [execute_sql] is not reached at all. *)
Theorem client_failure_records_no_error question db_uri σ0 schema σ1 e w :
  let s0 := initial_state question db_uri in
  let s1 := apply_update s0 {[ "schema" := PStr schema; "error" := PNone ]} in
  let σ2 := logged "---(Node: generate_sql)---"
              {| outside := w; stdout := stdout σ1 |} in
  get_schema_try s0 (logged "---(Node: get_schema)---" σ0)
  = (Return {[ "schema" := PStr schema; "error" := PNone ]}, σ1) ->
  ChatGroq E 0 "llama-3.3-70b-versatile" (outside σ1) = (inl e, w) ->
  get_schema s0 σ0
  = (Return {[ "schema" := PStr schema; "error" := PNone ]}, σ1)
  /\ truthy (dict_get s1 "error") = false
  /\ generate_sql s1 σ1 = (Raise e, σ2)
  /\ run_nodes [get_schema; generate_sql; execute_sql] s0 σ0 = (Raise e, σ2)
  /\ entries "execute_sql" σ2 = entries "execute_sql" σ0.
Proof.
  intros s0 s1 σ2 H1 Hc.
  destruct (run_without_client question db_uri σ0 schema σ1 e w H1 Hc)
    as (R1 & R2 & R & _).
  do 2 (split; [done|]). do 2 (split; [done|]).
  destruct (entries_after_get_schema _ _ _ _ R1) as (_ & _ & A & _).
  destruct (entries_after_generate_sql _ _ _ _ R2) as (_ & _ & B & _).
  exact (eq_trans B A).
Qed.

(** C2, where the code departs from it.  In a run whose schema has been
    read, when the LLM client cannot be built in [generate_sql] the
    exception leaves the engine and the entry point, and
    [generate_answer] is not entered: it runs zero times, not once. *)
Theorem client_failure_skips_generate_answer
    question db_uri σ0 schema σ1 e w :
  let s0 := initial_state question db_uri in
  let σ2 := logged "---(Node: generate_sql)---"
              {| outside := w; stdout := stdout σ1 |} in
  get_schema_try s0 (logged "---(Node: get_schema)---" σ0)
  = (Return {[ "schema" := PStr schema; "error" := PNone ]}, σ1) ->
  ChatGroq E 0 "llama-3.3-70b-versatile" (outside σ1) = (inl e, w) ->
  invoke get_compiled_app s0 σ0 = (Raise e, σ2)
  /\ run_agent_graph question db_uri σ0 = (Raise e, σ2)
  /\ entries "generate_answer" σ2 = entries "generate_answer" σ0.
Proof.
  intros s0 σ2 H1 Hc.
  destruct (run_without_client question db_uri σ0 schema σ1 e w H1 Hc)
    as (R1 & R2 & _ & Hinv & Hrun).
  do 2 (split; [done|]).
  destruct (entries_after_get_schema _ _ _ _ R1) as (_ & _ & _ & A).
  destruct (entries_after_generate_sql _ _ _ _ R2) as (_ & _ & _ & B).
  exact (eq_trans B A).
Qed.

(** C9: an exception raised by the LLM call of [generate_answer] is caught
    nowhere: it leaves [generate_answer], the engine and [run_agent_graph],
    and the run yields no state, hence neither an [answer] nor an [error]
    field.  The same holds when the client of that call cannot be
    built. *)
Theorem answer_failure_propagates question db_uri σ0 s3 σ3 prompt :
  run_nodes [get_schema; generate_sql; execute_sql]
    (initial_state question db_uri) σ0 = (Return s3, σ3) ->
  generate_answer_prompt s3 (logged "---(Node: generate_answer)---" σ3)
  = (Return prompt, logged "---(Node: generate_answer)---" σ3) ->
  (forall llm w1 e w,
      ChatGroq E 0 "llama-3.3-70b-versatile" (outside σ3) = (inr llm, w1) ->
      llm_invoke E llm prompt w1 = (inl e, w) ->
      let σ4 := logged "---(Node: generate_answer)---"
                  {| outside := w; stdout := stdout σ3 |} in
      generate_answer s3 σ3 = (Raise e, σ4)
      /\ invoke get_compiled_app (initial_state question db_uri) σ0
         = (Raise e, σ4)
      /\ run_agent_graph question db_uri σ0 = (Raise e, σ4))
  /\ (forall e w,
        ChatGroq E 0 "llama-3.3-70b-versatile" (outside σ3) = (inl e, w) ->
        let σ4 := logged "---(Node: generate_answer)---"
                    {| outside := w; stdout := stdout σ3 |} in
        generate_answer s3 σ3 = (Raise e, σ4)
        /\ invoke get_compiled_app (initial_state question db_uri) σ0
           = (Raise e, σ4)
        /\ run_agent_graph question db_uri σ0 = (Raise e, σ4)).
Proof.
  intros R Hp.
  assert (Hprop : forall e σ4,
             generate_answer s3 σ3 = (Raise e, σ4) ->
             generate_answer s3 σ3 = (Raise e, σ4)
             /\ invoke get_compiled_app (initial_state question db_uri) σ0
                = (Raise e, σ4)
             /\ run_agent_graph question db_uri σ0 = (Raise e, σ4)).
  { intros e σ4 Hrun.
    assert (Hinv : invoke get_compiled_app (initial_state question db_uri) σ0
                   = (Raise e, σ4))
      by by rewrite invoke_after_three, R, run_bind, Hrun.
    do 2 (split; [done|]).
    unfold run_agent_graph. by rewrite run_bind, Hinv. }
  split.
  - intros llm w1 e w Hc Hllm σ4. apply Hprop.
    by rewrite (generate_answer_run _ _ _ Hp), Hc, Hllm.
  - intros e w Hc σ4. apply Hprop.
    by rewrite (generate_answer_run _ _ _ Hp), Hc.
Qed.

(** C8: [run_agent_graph] runs the compiled graph on the state made of the
    question and the connection descriptor, and returns the [answer] field
    of the final state, or the fixed apology when the field is unset. *)
Theorem run_agent_graph_returns_answer question db_uri σ0 :
  run_agent_graph question db_uri σ0 =
  match invoke get_compiled_app
          {[ "question" := PStr question; "db_uri" := PStr db_uri ]} σ0 with
  | (Return final_state, σ) =>
      (Return
         match final_state !! "answer" with
         | Some answer => answer
         | None =>
             PStr "I'm sorry, I encountered an error and couldn't process your request."
         end, σ)
  | (Raise e, σ) => (Raise e, σ)
  end.
Proof.
  unfold run_agent_graph. rewrite run_bind. unfold initial_state.
  destruct (invoke get_compiled_app _ σ0) as [[final_state|e] σ]; [|done].
  unfold dict_get_default. by destruct (final_state !! "answer").
Qed.

(** In a run that completes, the value returned is the text of the LLM:
    the apology is not produced by the graph of [get_compiled_app]. *)
Lemma run_agent_graph_returns_text question db_uri σ0 v σ :
  run_agent_graph question db_uri σ0 = (Return v, σ) ->
  exists s3 σ3 content,
    run_nodes [get_schema; generate_sql; execute_sql]
      (initial_state question db_uri) σ0 = (Return s3, σ3)
    /\ generate_answer s3 σ3 = (Return {[ "answer" := PStr content ]}, σ)
    /\ v = PStr content.
Proof.
  unfold run_agent_graph. rewrite run_bind, invoke_after_three.
  destruct (run_nodes _ _ σ0) as [[s3|e] σ3]; [|done].
  rewrite run_bind.
  destruct (generate_answer s3 σ3) as [[u4|e] σ4] eqn:H4; [|done].
  destruct (generate_answer_update _ _ _ _ H4) as [content ->].
  unfold mret, M_ret, dict_get_default.
  erewrite apply_update_set by reflexivity.
  intros [= <- <-]. by exists s3, σ3, content.
Qed.

End Run.

(** ** Error handling, node by node *)

Section ErrorHandling.
Context {E : Externals}.
Implicit Types (state update : gmap string pyval) (σ : sys) (e : exn).

Lemma dict_get_lookup state1 state2 key :
  state1 !! key = state2 !! key -> dict_get state1 key = dict_get state2 key.
Proof. unfold dict_get. by intros ->. Qed.

(** C5: when [error] is non-empty the prompt of [generate_answer] is the
    error prompt, built from [question] and [error] alone: two states that
    agree on these two fields get the same prompt, and the same call of
    the LLM, whatever their [sql_query] and [sql_result]. *)
Theorem error_prompt_takes_precedence state1 state2 σ :
  truthy (dict_get state1 "error") = true ->
  state1 !! "question" = state2 !! "question" ->
  state1 !! "error" = state2 !! "error" ->
  (forall question,
      state1 !! "question" = Some question ->
      generate_answer_prompt state1 σ
      = (Return (error_prompt question (dict_get state1 "error")), σ))
  /\ generate_answer_prompt state1 σ = generate_answer_prompt state2 σ
  /\ generate_answer state1 σ = generate_answer state2 σ.
Proof.
  intros Ht Hq He.
  assert (Hp : forall τ,
             generate_answer_prompt state1 τ = generate_answer_prompt state2 τ).
  { intros τ. unfold generate_answer_prompt.
    rewrite <- (dict_get_lookup state1 state2 "error" He), Ht.
    unfold_run. by rewrite <- Hq, <- He. }
  split; [|split].
  - intros question Hquestion. by apply generate_answer_prompt_error.
  - apply Hp.
  - unfold generate_answer. rewrite !run_bind.
    unfold print. by rewrite !run_bind, Hp.
Qed.

(** C7: when the [try] block of [execute_sql] raises, the node returns an
    update whose only field is [error]; the message contains the text of
    the exception and the whole SQL query; [sql_result] is not set. *)
Theorem execute_sql_failure_message state σ e σ' sql_query :
  truthy (dict_get state "error") = false ->
  state !! "sql_query" = Some (PStr sql_query) ->
  execute_sql_try state (logged "---(Node: execute_sql)---" σ) = (Raise e, σ') ->
  exists msg,
    execute_sql state σ
    = (Return {[ "error" := PStr msg ]},
       logged ("Error executing SQL: " ++ exn_str e) σ')
    /\ Str.contains msg (exn_str e) = true
    /\ Str.contains msg sql_query = true
    /\ ({[ "error" := PStr msg ]} : gmap string pyval) !! "sql_result" = None
    /\ apply_update state {[ "error" := PStr msg ]} !! "sql_result"
       = state !! "sql_result".
Proof.
  intros Ht Hq Hf. exists (execute_sql_error e (PStr sql_query)).
  split; [by rewrite (execute_sql_run _ _ _ Ht Hq), Hf|].
  unfold execute_sql_error. cbn [format_value].
  split; [apply StrFacts.contains_infix|].
  split; [do 2 apply StrFacts.contains_app_r; apply StrFacts.contains_suffix|].
  split; [reflexivity|]. by apply apply_update_unset.
Qed.


(** A node that comes after another one in the pipeline leaves a recorded
    error as it is. *)
Lemma later_node_keeps_error (f : gmap string pyval -> M (gmap string pyval))
    state σ update σ' :
  f = generate_sql \/ f = execute_sql \/ f = generate_answer ->
  truthy (dict_get state "error") = true ->
  f state σ = (Return update, σ') ->
  apply_update state update !! "error" = state !! "error".
Proof.
  intros [->|[->| ->]] Ht H.
  - rewrite (generate_sql_skip _ _ Ht) in H. injection H as <- <-.
    by rewrite apply_update_empty.
  - rewrite (execute_sql_skip _ _ Ht) in H. injection H as <- <-.
    by rewrite apply_update_empty.
  - apply apply_update_unset. revert H.
    unfold generate_answer. run_cases.
Qed.

Lemma later_nodes_keep_error
    (l : list (gmap string pyval -> M (gmap string pyval)))
    state σ state' σ' :
  Forall (fun f => f = generate_sql \/ f = execute_sql \/ f = generate_answer)
    l ->
  truthy (dict_get state "error") = true ->
  run_nodes l state σ = (Return state', σ') ->
  state' !! "error" = state !! "error".
Proof.
  intros Hl. revert state σ.
  induction Hl as [|f l Hf Hl IH]; intros state σ Ht; cbn [run_nodes].
  { by intros [= <- <-]. }
  rewrite run_bind. destruct (f state σ) as [[u|e] τ] eqn:Hfu; [|done].
  intros H. pose proof (later_node_keeps_error f _ _ _ _ Hf Ht Hfu) as Hk.
  rewrite <- Hk. apply (IH _ τ); [|done].
  unfold dict_get in *. by rewrite Hk.
Qed.

Lemma after_first_node pre
    (f : gmap string pyval -> M (gmap string pyval)) later :
  pipeline_nodes = (pre ++ f :: later)%list ->
  Forall (fun g => g = generate_sql \/ g = execute_sql \/ g = generate_answer)
    later.
Proof.
  assert (Hall :
    Forall (fun g => g = generate_sql \/ g = execute_sql \/ g = generate_answer)
      [generate_sql; execute_sql; generate_answer])
    by (repeat constructor; auto).
  unfold pipeline_nodes. destruct pre as [|g pre]; intros [= <- H].
  - by rewrite <- H.
  - rewrite H in Hall. apply Forall_app in Hall as [_ Hall].
    by apply Forall_cons in Hall as [_ Hall].
Qed.

(** C6: once a node of the pipeline has set [error] to a non-empty string,
    the field keeps that value through every node that runs after it, in
    the order [get_schema], [generate_sql], [execute_sql],
    [generate_answer]. *)
Theorem error_remains_set pre f mid rest state σ update σ1 state' σ2 :
  pipeline_nodes = (pre ++ f :: mid ++ rest)%list ->
  f state σ = (Return update, σ1) ->
  truthy (dict_get update "error") = true ->
  run_nodes mid (apply_update state update) σ1 = (Return state', σ2) ->
  state' !! "error" = update !! "error"
  /\ truthy (dict_get state' "error") = true.
Proof.
  intros Hsplit Hf Ht Hrun.
  apply after_first_node, Forall_app in Hsplit as [Hmid _].
  destruct (truthy_get_is_Some _ _ Ht) as [v Hv].
  assert (Hs : apply_update state update !! "error" = update !! "error")
    by (rewrite Hv; by apply apply_update_set).
  assert (Hk : state' !! "error" = update !! "error").
  { rewrite <- Hs. eapply later_nodes_keep_error; [done| |done].
    unfold dict_get in *. by rewrite Hs. }
  split; [done|]. unfold dict_get in *. by rewrite Hk.
Qed.

End ErrorHandling.

(** ** Concrete runs *)

Example run_all_good :
  run_agent_graph (E:=scripted) "How many users are there?" "db" (boot all_good)
  = (Return (PStr "There are 3 users."),
     {| outside := ({| connection := None;
                       table_info := inr "CREATE TABLE users (id INTEGER)";
                       query_result := inr "[(3,)]";
                       client := None;
                       replies := [] |} : world scripted);
        stdout := ["---(Node: get_schema)---"; "---(Node: generate_sql)---";
                   "---(Node: execute_sql)---";
                   "---(Node: generate_answer)---"] |}).
Proof. vm_compute. reflexivity. Qed.

Example run_refused :
  (run_agent_graph (E:=scripted) "How many users are there?" "db"
     (boot refused)).1
  = Return (PStr "The database could not be reached.")
  /\ stdout (run_agent_graph (E:=scripted) "How many users are there?" "db"
               (boot refused)).2
     = ["---(Node: get_schema)---"; "Error getting schema: connection refused";
        "---(Node: generate_sql)---"; "---(Node: execute_sql)---";
        "---(Node: generate_answer)---"].
Proof. vm_compute. split; reflexivity. Qed.

Example run_bad_query_error :
  match (run_nodes [get_schema (E:=scripted); generate_sql; execute_sql]
           (initial_state "How old are the users?" "db") (boot bad_query)).1
  with
  | Return state => state !! "error"
  | Raise _ => None
  end
  = Some (PStr ("Error executing SQL: column age does not exist. "
                ++ "Check your query: SELECT age FROM users;")).
Proof. vm_compute. reflexivity. Qed.

Example postprocess_sql_nested :
  let nested := "```sql" ++ Str.nl ++ "```sql" ++ Str.nl ++ "SELECT 1;"
                ++ Str.nl ++ "```" ++ Str.nl ++ "```" in
  postprocess_sql nested = "```sql" ++ Str.nl ++ "SELECT 1;" ++ Str.nl ++ "```"
  /\ postprocess_sql (postprocess_sql nested) = "SELECT 1;".
Proof. vm_compute. split; reflexivity. Qed.

Lemma client_failure_records_no_error_witness :
  get_schema (E:=scripted) (initial_state "How many users?" "db")
    (boot no_api_key)
  = (Return {[ "schema" := PStr "CREATE TABLE users (id INTEGER)";
               "error" := PNone ]},
     logged "---(Node: get_schema)---" (boot no_api_key))
  /\ run_nodes (E:=scripted) [get_schema; generate_sql; execute_sql]
       (initial_state "How many users?" "db") (boot no_api_key)
     = (Raise (Error "The api_key client option must be set"),
        logged "---(Node: generate_sql)---"
          (logged "---(Node: get_schema)---" (boot no_api_key))).
Proof.
  destruct (client_failure_records_no_error (E:=scripted)
              "How many users?" "db" (boot no_api_key)
              "CREATE TABLE users (id INTEGER)"
              (logged "---(Node: get_schema)---" (boot no_api_key))
              (Error "The api_key client option must be set")
              (no_api_key : world scripted))
    as (R1 & _ & _ & R & _); [by vm_compute..|].
  split; [exact R1|exact R].
Defined.

Lemma client_failure_skips_generate_answer_witness :
  run_agent_graph (E:=scripted) "How many users?" "db" (boot no_api_key)
  = (Raise (Error "The api_key client option must be set"),
     logged "---(Node: generate_sql)---"
       (logged "---(Node: get_schema)---" (boot no_api_key)))
  /\ entries "generate_answer"
       (logged "---(Node: generate_sql)---"
          (logged "---(Node: get_schema)---" (boot no_api_key)))
     = entries "generate_answer" (boot no_api_key).
Proof.
  destruct (client_failure_skips_generate_answer (E:=scripted)
              "How many users?" "db" (boot no_api_key)
              "CREATE TABLE users (id INTEGER)"
              (logged "---(Node: get_schema)---" (boot no_api_key))
              (Error "The api_key client option must be set")
              (no_api_key : world scripted))
    as (_ & R & Hent); [by vm_compute..|].
  split; [exact R|exact Hent].
Defined.

Lemma error_prompt_takes_precedence_witness :
  let state1 : gmap string pyval :=
    {[ "question" := PStr "How many users?"; "error" := PStr "boom";
       "sql_query" := PStr "SELECT 1;"; "sql_result" := PStr "[(1,)]" ]} in
  let state2 : gmap string pyval :=
    {[ "question" := PStr "How many users?"; "error" := PStr "boom";
       "sql_query" := PStr "DROP TABLE users;" ]} in
  generate_answer_prompt (E:=scripted) state1 (boot refused)
  = generate_answer_prompt (E:=scripted) state2 (boot refused).
Proof.
  intros state1 state2.
  refine (proj1 (proj2 (error_prompt_takes_precedence (E:=scripted)
                          state1 state2 (boot refused) _ _ _)));
    vm_compute; reflexivity.
Defined.

Lemma execute_sql_failure_message_witness :
  let state : gmap string pyval :=
    {[ "question" := PStr "How old are the users?"; "db_uri" := PStr "db";
       "schema" := PStr "CREATE TABLE users (id INTEGER)";
       "sql_query" := PStr "SELECT age FROM users;"; "error" := PNone ]} in
  exists msg,
    (execute_sql (E:=scripted) state (boot bad_query)).1
    = Return {[ "error" := PStr msg ]}
    /\ Str.contains msg "column age does not exist" = true
    /\ Str.contains msg "SELECT age FROM users;" = true.
Proof.
  intros state.
  destruct (execute_sql_failure_message (E:=scripted) state (boot bad_query)
              (Error "column age does not exist")
              (logged "---(Node: execute_sql)---" (boot bad_query))
              "SELECT age FROM users;")
    as (msg & Hrun & He & Hq & _); [vm_compute; reflexivity..|].
  exists msg. rewrite Hrun. auto.
Defined.

Lemma answer_failure_propagates_witness :
  (run_agent_graph (E:=scripted) "How many users?" "db" (boot answer_down)).1
  = Raise (Error "rate limit").
Proof.
  pose (s0 := initial_state "How many users?" "db").
  pose (r := run_nodes [get_schema (E:=scripted); generate_sql; execute_sql]
               s0 (boot answer_down)).
  pose (p := generate_answer_prompt (E:=scripted)
               match r.1 with Return s => s | Raise _ => ∅ end
               (logged "---(Node: generate_answer)---" r.2)).
  destruct (proj1 (answer_failure_propagates (E:=scripted)
                     "How many users?" "db" (boot answer_down)
                     match r.1 with Return s => s | Raise _ => ∅ end r.2
                     match p.1 with Return s => s | Raise _ => EmptyString end
                     ltac:(vm_compute; reflexivity)
                     ltac:(vm_compute; reflexivity))
              tt (outside r.2) (Error "rate limit")
              (next_reply (outside r.2)).2)
    as (_ & _ & H); [vm_compute; reflexivity..|].
  by rewrite H.
Defined.


Lemma error_remains_set_witness :
  exists update σ1 state' σ2,
    get_schema (E:=scripted) (initial_state "How many users?" "db")
      (boot refused) = (Return update, σ1)
    /\ run_nodes [generate_sql; execute_sql; generate_answer]
         (apply_update (initial_state "How many users?" "db") update) σ1
       = (Return state', σ2)
    /\ state' !! "error" = update !! "error"
    /\ truthy (dict_get state' "error") = true.
Proof.
  pose (s0 := initial_state "How many users?" "db").
  pose (r1 := get_schema (E:=scripted) s0 (boot refused)).
  pose (u := match r1.1 with Return s => s | Raise _ => ∅ end).
  pose (r := run_nodes [generate_sql (E:=scripted); execute_sql; generate_answer]
               (apply_update s0 u) r1.2).
  exists u, r1.2, match r.1 with Return s => s | Raise _ => ∅ end, r.2.
  assert (H1 : get_schema (E:=scripted) s0 (boot refused) = (Return u, r1.2))
    by (vm_compute; reflexivity).
  assert (H2 : run_nodes [generate_sql (E:=scripted); execute_sql; generate_answer]
                 (apply_update s0 u) r1.2
               = (Return match r.1 with Return s => s | Raise _ => ∅ end, r.2))
    by (vm_compute; reflexivity).
  assert (Ht : truthy (dict_get u "error") = true)
    by (vm_compute; reflexivity).
  do 2 (split; [assumption|]).
  exact (error_remains_set (E:=scripted) [] get_schema
           [generate_sql; execute_sql; generate_answer] []
           s0 (boot refused) u r1.2 _ r.2 eq_refl H1 Ht H2).
Defined.

(** * Further properties *)

(** ** More on stripping and slicing *)

Module StrMore.
Import Str StrFacts.

Lemma app_nil_r s : s ++ EmptyString = s.
Proof. induction s as [|c s IH]; [done|]. by rewrite app_cons, IH. Qed.

Lemma app_assoc s t u : (s ++ t) ++ u = s ++ t ++ u.
Proof. induction s as [|c s IH]; [done|]. by rewrite !app_cons, IH. Qed.

Lemma length_app s t : String.length (s ++ t) = String.length s + String.length t.
Proof.
  induction s as [|c s IH]; [done|]. rewrite app_cons. simpl. by rewrite IH.
Qed.

Lemma app_eq_nil s t : s ++ t = EmptyString -> t = EmptyString.
Proof. destruct s as [|c s]; [done|]. by rewrite app_cons. Qed.

Lemma drop_app s t : drop (String.length s) (s ++ t) = t.
Proof. induction s as [|c s IH]; [by destruct t|]. by rewrite app_cons. Qed.

Lemma take_app s t : take (String.length s) (s ++ t) = s.
Proof.
  induction s as [|c s IH]; [by destruct t|].
  rewrite app_cons. simpl. by rewrite IH.
Qed.

Lemma take_drop n s : take n s ++ drop n s = s.
Proof.
  revert s. induction n as [|n IH]; intros [|c s]; try done.
  simpl. by rewrite app_cons, IH.
Qed.

Lemma endswith_app s p : endswith (s ++ p) p = true.
Proof.
  unfold endswith. rewrite length_app.
  replace (String.length s + String.length p - String.length p)
    with (String.length s) by lia.
  rewrite drop_app, String.eqb_refl, andb_true_r.
  apply Nat.leb_le. lia.
Qed.

Lemma drop_last_app s p : drop_last (String.length p) (s ++ p) = s.
Proof.
  unfold drop_last. rewrite length_app.
  replace (String.length s + String.length p - String.length p)
    with (String.length s) by lia.
  apply take_app.
Qed.

(** [rstrip] only looks at the end of the string. *)
Lemma rstrip_app s t :
  rstrip t <> EmptyString -> rstrip (s ++ t) = s ++ rstrip t.
Proof.
  intros Ht. induction s as [|c s IH]; [done|].
  rewrite !app_cons. cbn [rstrip]. rewrite IH.
  destruct (s ++ rstrip t) eqn:Hs; [|done].
  by apply app_eq_nil in Hs.
Qed.

Lemma lstrip_nonspace c s : isspace c = false -> lstrip (String c s) = String c s.
Proof. intros H. simpl. by rewrite H. Qed.

(** What [lstrip] removes is a prefix, what [rstrip] removes a suffix. *)
Lemma lstrip_suffix s : exists a, s = a ++ lstrip s.
Proof.
  induction s as [|c s [a IH]]; [by exists EmptyString|].
  simpl. destruct (isspace c); [|by exists EmptyString].
  exists (String c a). by rewrite app_cons, <- IH.
Qed.

Lemma rstrip_prefix s : exists b, s = rstrip s ++ b.
Proof.
  induction s as [|c s [b IH]]; [by exists EmptyString|].
  destruct (rstrip_cons c s) as [->| ->].
  - by exists (String c s).
  - exists b. by rewrite app_cons, <- IH.
Qed.

Lemma strip_infix s : exists a b, s = a ++ strip s ++ b.
Proof.
  destruct (lstrip_suffix s) as [a Ha].
  destruct (rstrip_prefix (lstrip s)) as [b Hb].
  exists a, b. unfold strip. by rewrite <- Hb.
Qed.

Lemma infix_trans x y z :
  (exists a b, y = a ++ x ++ b) ->
  (exists a b, z = a ++ y ++ b) ->
  exists a b, z = a ++ x ++ b.
Proof.
  intros (a & b & ->) (a' & b' & ->). exists (a' ++ a), (b ++ b').
  by rewrite !app_assoc.
Qed.

(** The last character of a right-stripped string is no whitespace. *)
Lemma rstrip_last s r c :
  rstrip s = r ++ String c EmptyString -> isspace c = false.
Proof.
  revert r. induction s as [|d s IH]; intros r.
  { by destruct r. }
  destruct (rstrip_cons d s) as [H|H]; rewrite H.
  { by destruct r. }
  destruct r as [|d' r]; rewrite ?app_cons.
  - intros [= -> Hs]. simpl in H. rewrite Hs in H.
    destruct (isspace c); [done|done].
  - intros [= -> Hs]. by apply (IH r).
Qed.

End StrMore.

(** ** More on the clean-up of the LLM response *)

Section PostprocessMore.
Import Str StrFacts StrMore.

Lemma strip_between c s t :
  isspace c = false -> rstrip t = t -> t <> EmptyString ->
  strip (String c s ++ t) = String c s ++ t.
Proof.
  intros Hc Ht Hne. unfold strip.
  rewrite app_cons, (lstrip_nonspace _ _ Hc), <- app_cons.
  rewrite rstrip_app by by rewrite Ht. by rewrite Ht.
Qed.

(** X1: a response that consists of the opener [```sql], any text and the
    closer [```] is cleaned to that text, stripped. *)
Theorem postprocess_sql_fenced body :
  postprocess_sql ("```sql" ++ body ++ "```") = strip body.
Proof.
  unfold postprocess_sql.
  assert (Hs : strip ("```sql" ++ body ++ "```") = "```sql" ++ body ++ "```").
  { rewrite <- app_assoc. change "```sql" with (String "`" "``sql").
    rewrite (app_cons _ _ body). by apply strip_between. }
  rewrite Hs, startswith_app.
  change 6 with (String.length "```sql"). rewrite drop_app.
  rewrite endswith_app.
  change 3 with (String.length "```"). by rewrite drop_last_app.
Qed.

(** X2: the cleaned query is a contiguous part of the response: the
    clean-up only removes text at the two ends. *)
Theorem postprocess_sql_infix content :
  exists before after, content = before ++ postprocess_sql content ++ after.
Proof.
  unfold postprocess_sql.
  set (x1 := strip content).
  set (x2 := if startswith x1 "```sql" then drop 6 x1 else x1).
  set (x3 := if endswith x2 "```" then drop_last 3 x2 else x2).
  assert (H1 : exists a b, content = a ++ x1 ++ b) by apply strip_infix.
  assert (H2 : exists a b, x1 = a ++ x2 ++ b).
  { subst x2. destruct (startswith x1 "```sql").
    - exists (take 6 x1), EmptyString. by rewrite app_nil_r, take_drop.
    - exists EmptyString, EmptyString. by rewrite app_nil_r. }
  assert (H3 : exists a b, x2 = a ++ x3 ++ b).
  { subst x3. destruct (endswith x2 "```").
    - exists EmptyString, (drop (String.length x2 - 3) x2).
      unfold drop_last. by rewrite take_drop.
    - exists EmptyString, EmptyString. by rewrite app_nil_r. }
  eapply infix_trans; [|exact H1].
  eapply infix_trans; [|exact H2].
  eapply infix_trans; [|exact H3].
  apply strip_infix.
Qed.

(** X3: the cleaned query neither begins nor ends with a whitespace
    character. *)
Theorem postprocess_sql_trimmed content :
  (forall c rest, postprocess_sql content = String c rest -> isspace c = false)
  /\ (forall rest c,
        postprocess_sql content = rest ++ String c EmptyString ->
        isspace c = false).
Proof.
  unfold postprocess_sql.
  set (x := if endswith _ _ then _ else _). clearbody x. split.
  - intros c rest. unfold strip.
    destruct (lstrip_head x) as [->|(d & r & -> & Hd)]; [done|].
    rewrite (rstrip_cons_nonspace _ _ Hd). by intros [= <- _].
  - intros rest c. unfold strip. apply rstrip_last.
Qed.

Lemma postprocess_sql_trimmed_witness :
  postprocess_sql ("  SELECT 1;" ++ nl) = "SELECT 1;"
  /\ isspace "S" = false /\ isspace ";" = false.
Proof.
  split; [by vm_compute|]. split.
  - apply (proj1 (postprocess_sql_trimmed ("  SELECT 1;" ++ nl)) _ "ELECT 1;").
    by vm_compute.
  - apply (proj2 (postprocess_sql_trimmed ("  SELECT 1;" ++ nl)) "SELECT 1").
    by vm_compute.
Defined.

End PostprocessMore.

Section PostprocessUntagged.
Import Str StrFacts StrMore.

Lemma rstrip_app_blank s t :
  rstrip t = EmptyString -> rstrip (s ++ t) = rstrip s.
Proof.
  intros Ht. induction s as [|c s IH]; [done|].
  rewrite app_cons. cbn [rstrip]. by rewrite IH.
Qed.

Lemma rstrip_app_stripped s t :
  rstrip s = s -> rstrip (s ++ t) = s ++ rstrip t.
Proof.
  intros Hs. destruct (rstrip t) eqn:Ht.
  - by rewrite (rstrip_app_blank _ _ Ht), app_nil_r.
  - rewrite <- Ht. apply rstrip_app. by rewrite Ht.
Qed.

Lemma startswith_sql_app body t :
  startswith body "sql" = false ->
  startswith t "s" = false -> startswith t "q" = false ->
  startswith t "l" = false ->
  startswith (body ++ t) "sql" = false.
Proof.
  intros Hb Hs Hq Hl.
  destruct body as [|a [|b [|c body]]]; rewrite ?app_cons;
    change (EmptyString ++ t) with t; cbn [startswith] in *.
  - destruct t as [|x t]; [done|]. cbn [startswith] in *.
    rewrite andb_true_r in Hs. by rewrite Hs.
  - destruct (Ascii.eqb "s" a); [|done]. cbn [andb].
    destruct t as [|x t]; [done|]. cbn [startswith] in *.
    rewrite andb_true_r in Hq. by rewrite Hq.
  - destruct (Ascii.eqb "s" a); [|done].
    destruct (Ascii.eqb "q" b); [|done]. cbn [andb].
    destruct t as [|x t]; [done|]. cbn [startswith] in *.
    rewrite andb_true_r in Hl. by rewrite Hl.
  - done.
Qed.

(** X4: only the opener tagged [sql] is removed.  When the text after the
    three backquotes does not begin with [sql], the closer is removed and
    the opener stays at the head of the query. *)
Theorem postprocess_sql_untagged body :
  startswith body "sql" = false ->
  postprocess_sql ("```" ++ body ++ "```") = "```" ++ rstrip body.
Proof.
  intros Hb. unfold postprocess_sql.
  assert (Hs : strip ("```" ++ body ++ "```") = "```" ++ body ++ "```").
  { rewrite <- app_assoc. change "```" with (String "`" "``") at 1.
    rewrite (app_cons _ _ body). by apply strip_between. }
  rewrite Hs.
  assert (Ho : startswith ("```" ++ body ++ "```") "```sql" = false).
  { change (startswith (body ++ "```") "sql" = false).
    by apply startswith_sql_app. }
  rewrite Ho, <- app_assoc, endswith_app.
  change 3 with (String.length "```"). rewrite drop_last_app.
  unfold strip. change "```" with (String "`" "``") at 1.
  rewrite app_cons, lstrip_nonspace by done. rewrite <- app_cons.
  by apply rstrip_app_stripped.
Qed.

Lemma postprocess_sql_untagged_witness :
  postprocess_sql ("```" ++ (nl ++ "SELECT 1;" ++ nl) ++ "```")
  = "```" ++ nl ++ "SELECT 1;".
Proof.
  rewrite (postprocess_sql_untagged (nl ++ "SELECT 1;" ++ nl)); by vm_compute.
Defined.

End PostprocessUntagged.

(** ** More on the nodes *)

Section NodesMore.
Context {E : Externals}.
Implicit Types (state update : gmap string pyval) (σ : sys) (e : exn).

(** X5: [get_schema] never raises.  In any state and any world it returns
    an update: the schema with [error] set to [None], or only [error],
    set to the text it also prints.  Without a [db_uri] in the state the
    [KeyError] is caught like any other failure, before any connection is
    attempted. *)
Theorem get_schema_never_raises state σ :
  (exists update σ',
      get_schema state σ = (Return update, σ')
      /\ ((exists schema,
              update = {[ "schema" := PStr schema; "error" := PNone ]}
              /\ stdout σ' = stdout (logged "---(Node: get_schema)---" σ))
          \/ (exists e,
               update
               = {[ "error" := PStr ("Error getting schema: " ++ exn_str e) ]}
               /\ stdout σ'
                  = stdout (logged ("Error getting schema: " ++ exn_str e)
                              (logged "---(Node: get_schema)---" σ)))))
  /\ (state !! "db_uri" = None ->
      get_schema state σ
      = (Return {[ "error" :=
                     PStr ("Error getting schema: "
                           ++ Str.squote ++ "db_uri" ++ Str.squote) ]},
         logged ("Error getting schema: "
                 ++ Str.squote ++ "db_uri" ++ Str.squote)
           (logged "---(Node: get_schema)---" σ))).
Proof.
  split.
  - rewrite get_schema_run.
    destruct (get_schema_try state _) as [[u|e] τ] eqn:H.
    + destruct (get_schema_try_update _ _ _ _ H) as [schema ->].
      eexists _, _. split; [reflexivity|]. left. exists schema.
      split; [done|]. by rewrite (stdout_get_schema_try _ _ _ _ H).
    + eexists _, _. split; [reflexivity|]. right. exists e.
      split; [done|]. cbn [logged stdout].
      by rewrite (stdout_get_schema_try _ _ _ _ H).
  - intros Hk. rewrite get_schema_run. unfold get_schema_try. unfold_run.
    by rewrite Hk.
Qed.

(** X7: [execute_sql] reads [sql_query] again in its [except] clause: when
    no error is recorded and the state has no [sql_query], the node raises
    [KeyError], whatever the database does, and records no error. *)
Theorem execute_sql_missing_query state σ :
  truthy (dict_get state "error") = false ->
  state !! "sql_query" = None ->
  exists σ', execute_sql state σ = (Raise (KeyError "sql_query"), σ').
Proof.
  intros Ht Hq. unfold execute_sql, execute_sql_try. unfold_run.
  rewrite Ht, Hq. repeat case_match; simplify_eq/=; eauto.
Qed.

(** No node writes [question] or [db_uri]. *)
Lemma node_keeps_inputs (f : gmap string pyval -> M (gmap string pyval))
    state σ update σ' :
  f ∈ pipeline_nodes ->
  f state σ = (Return update, σ') ->
  update !! "question" = None /\ update !! "db_uri" = None.
Proof.
  unfold pipeline_nodes. rewrite !elem_of_cons, elem_of_nil.
  intros [->|[->|[->|[->|[]]]]].
  - rewrite get_schema_run.
    destruct (get_schema_try state _) as [[u|e] τ] eqn:H; intros [= <- <-].
    + by destruct (get_schema_try_update _ _ _ _ H) as [schema ->].
    + done.
  - unfold generate_sql, generate_sql_try. unfold_run.
    repeat case_match; intros; simplify_eq; done.
  - unfold execute_sql, execute_sql_try. unfold_run.
    repeat case_match; intros; simplify_eq; done.
  - unfold generate_answer. unfold_run.
    repeat case_match; intros; simplify_eq; done.
Qed.

(** X8: the question and the connection descriptor are never modified:
    running any sequence of nodes of the pipeline from any state leaves
    the fields [question] and [db_uri] as they were. *)
Theorem inputs_are_preserved
    (l : list (gmap string pyval -> M (gmap string pyval)))
    state σ state' σ' :
  Forall (fun f => f ∈ pipeline_nodes) l ->
  run_nodes l state σ = (Return state', σ') ->
  state' !! "question" = state !! "question"
  /\ state' !! "db_uri" = state !! "db_uri".
Proof.
  intros Hl. revert state σ.
  induction Hl as [|f l Hf Hl IH]; intros state σ; cbn [run_nodes].
  { by intros [= <- <-]. }
  rewrite run_bind. destruct (f state σ) as [[u|e] τ] eqn:Hfu; [|done].
  intros H. destruct (node_keeps_inputs f _ _ _ _ Hf Hfu) as [Hq Hd].
  destruct (IH _ _ H) as [-> ->].
  by rewrite !apply_update_unset.
Qed.

End NodesMore.

(** ** More on the pipeline *)

Section PipelineMore.
Context {E : Externals}.
Implicit Types (state update : gmap string pyval) (σ : sys) (e : exn).

(** X9: a recorded error stops every external call until the answer is
    written.  After a failed connection, [generate_sql] and [execute_sql]
    only print their start line: the LLM is not asked for a query and the
    database is not contacted again.  After a failed SQL generation,
    [execute_sql] does not open a connection. *)
Theorem error_stops_external_calls question db_uri σ0 :
  let s0 := initial_state question db_uri in
  (forall e σ',
      get_schema_try s0 (logged "---(Node: get_schema)---" σ0) = (Raise e, σ') ->
      run_nodes [get_schema; generate_sql; execute_sql] s0 σ0
      = (Return (apply_update s0
                   {[ "error" := PStr ("Error getting schema: " ++ exn_str e) ]}),
         logged "---(Node: execute_sql)---"
           (logged "---(Node: generate_sql)---"
              (logged ("Error getting schema: " ++ exn_str e) σ'))))
  /\ (forall schema σ1 llm w1 e σ',
        get_schema_try s0 (logged "---(Node: get_schema)---" σ0)
        = (Return {[ "schema" := PStr schema; "error" := PNone ]}, σ1) ->
        ChatGroq E 0 "llama-3.3-70b-versatile" (outside σ1) = (inr llm, w1) ->
        generate_sql_try llm
          (generate_sql_prompt (PStr schema) (PStr question))
          (logged "---(Node: generate_sql)---"
             {| outside := w1; stdout := stdout σ1 |}) = (Raise e, σ') ->
        run_nodes [get_schema; generate_sql; execute_sql] s0 σ0
        = (Return (apply_update
                     (apply_update s0
                        {[ "schema" := PStr schema; "error" := PNone ]})
                     {[ "error" := PStr ("Error generating SQL: " ++ exn_str e) ]}),
           logged "---(Node: execute_sql)---"
             (logged ("Error generating SQL: " ++ exn_str e) σ'))).
Proof.
  cbv zeta. split.
  - intros e σ' H. cbn [run_nodes].
    rewrite run_bind, get_schema_run, H.
    rewrite run_bind, generate_sql_skip by reflexivity.
    rewrite run_bind, execute_sql_skip by reflexivity.
    by rewrite !apply_update_empty.
  - intros schema σ1 llm w1 e σ' H1 Hc H2. cbn [run_nodes].
    rewrite run_bind, get_schema_run, H1.
    rewrite run_bind,
      (generate_sql_run _ _ llm w1 (PStr schema) (PStr question)), H2
      by (reflexivity || exact Hc).
    rewrite run_bind, execute_sql_skip by reflexivity.
    by rewrite !apply_update_empty.
Qed.


Ltac find_part :=
  first [ apply StrFacts.startswith_contains, StrFacts.startswith_app
        | apply StrFacts.contains_app_r; find_part ].

(** X11: the three prompts carry their inputs verbatim: the SQL prompt
    contains the schema and the question, the error prompt the question
    and the error, the result prompt the question, the query and its
    result. *)
Theorem prompts_embed_inputs :
  (forall schema question,
      Str.contains (generate_sql_prompt (PStr schema) (PStr question)) schema
      = true
      /\ Str.contains (generate_sql_prompt (PStr schema) (PStr question))
           question = true)
  /\ (forall question error,
        Str.contains (error_prompt (PStr question) (PStr error)) question = true
        /\ Str.contains (error_prompt (PStr question) (PStr error)) error
           = true)
  /\ (forall question sql_query sql_result,
        Str.contains (result_prompt (PStr question) (PStr sql_query)
                        (PStr sql_result)) question = true
        /\ Str.contains (result_prompt (PStr question) (PStr sql_query)
                           (PStr sql_result)) sql_query = true
        /\ Str.contains (result_prompt (PStr question) (PStr sql_query)
                           (PStr sql_result)) sql_result = true).
Proof.
  unfold generate_sql_prompt, error_prompt, result_prompt.
  cbn [format_value]. repeat split; find_part.
Qed.

End PipelineMore.

(** ** How often the nodes are entered *)

Section Entries.
Context {E : Externals}.
Implicit Types (state update : gmap string pyval) (σ : sys) (e : exn).

(** X12: in one invocation of the graph no node is entered twice.
    [get_schema] and [generate_sql] are entered exactly once.  When
    [generate_sql] returns, also when it skips its work because an error
    is recorded, [execute_sql] and [generate_answer] are entered exactly
    once each, whatever the last LLM call does; when [generate_sql] raises
    (the LLM client cannot be built), the invocation ends with that
    exception and neither of the two is entered. *)
Theorem node_entries_per_invocation question db_uri σ0 :
  let s0 := initial_state question db_uri in
  let r := invoke get_compiled_app s0 σ0 in
  entries "get_schema" r.2 = S (entries "get_schema" σ0)
  /\ entries "generate_sql" r.2 = S (entries "generate_sql" σ0)
  /\ exists u1 σ1,
      get_schema s0 σ0 = (Return u1, σ1)
      /\ match generate_sql (apply_update s0 u1) σ1 with
         | (Return _, _) =>
             entries "execute_sql" r.2 = S (entries "execute_sql" σ0)
             /\ entries "generate_answer" r.2
                = S (entries "generate_answer" σ0)
         | (Raise e, σ2) =>
             r = (Raise e, σ2)
             /\ entries "execute_sql" r.2 = entries "execute_sql" σ0
             /\ entries "generate_answer" r.2 = entries "generate_answer" σ0
         end.
Proof.
  cbv zeta. rewrite invoke_after_three.
  destruct (pipeline_scenarios question db_uri σ0)
    as (u1 & σ1 & R1 & Hcases).
  destruct (entries_after_get_schema _ _ _ _ R1) as (A1 & A2 & A3 & A4).
  assert (Hret : forall u2 σ2 u3 σ3,
    generate_sql (apply_update (initial_state question db_uri) u1) σ1
    = (Return u2, σ2) ->
    execute_sql (apply_update (apply_update (initial_state question db_uri) u1) u2)
      σ2 = (Return u3, σ3) ->
    let r := (u4 ← generate_answer
                     (apply_update
                        (apply_update
                           (apply_update (initial_state question db_uri) u1)
                           u2) u3);
              mret (apply_update
                      (apply_update
                         (apply_update
                            (apply_update (initial_state question db_uri) u1)
                            u2) u3) u4)) σ3 in
    entries "get_schema" r.2 = S (entries "get_schema" σ0)
    /\ entries "generate_sql" r.2 = S (entries "generate_sql" σ0)
    /\ entries "execute_sql" r.2 = S (entries "execute_sql" σ0)
    /\ entries "generate_answer" r.2 = S (entries "generate_answer" σ0)).
  { intros u2 σ2 u3 σ3 R2 R3. cbv zeta. rewrite run_bind.
    destruct (entries_after_generate_sql _ _ _ _ R2) as (B1 & B2 & B3 & B4).
    destruct (entries_after_execute_sql _ _ _ _ R3) as (C1 & C2 & C3 & C4).
    destruct (generate_answer _ σ3) as [[u4|e] σ4] eqn:R4.
    all: destruct (entries_after_generate_answer _ _ _ _ R4)
           as (D1 & D2 & D3 & D4).
    all: unfold mret, M_ret; cbn [snd]; repeat split; lia. }
  destruct Hcases as
    [(e1 & σ2 & σ3 & -> & R2 & R3)
    |(schema & -> &
       [(e2 & σ2 & R2)
       |(u2 & σ2 & u3 & σ3 & R2 & R3 & _)])].
  - rewrite <- (apply_update_empty (apply_update _ _)) in R3 at 1.
    rewrite (run_first_three _ _ _ _ _ _ _ _ R1 R2 R3).
    destruct (Hret _ _ _ _ R2 R3) as (H1 & H2 & H3 & H4).
    do 2 (split; [done|]). eexists _, _. split; [exact R1|].
    rewrite R2. by split.
  - assert (R : run_nodes [get_schema; generate_sql; execute_sql]
                  (initial_state question db_uri) σ0 = (Raise e2, σ2)).
    { cbn [run_nodes]. by rewrite run_bind, R1, run_bind, R2. }
    rewrite R. cbn [snd].
    destruct (entries_after_generate_sql _ _ _ _ R2) as (B1 & B2 & B3 & B4).
    split; [lia|]. split; [lia|]. eexists _, _. split; [exact R1|].
    rewrite R2. split; [done|]. split; lia.
  - rewrite (run_first_three _ _ _ _ _ _ _ _ R1 R2 R3).
    destruct (Hret _ _ _ _ R2 R3) as (H1 & H2 & H3 & H4).
    do 2 (split; [done|]). eexists _, _. split; [exact R1|].
    rewrite R2. by split.
Qed.

End Entries.

(** ** The value of the entry point *)

Section EntryPoint.
Context {E : Externals}.
Implicit Types (state update : gmap string pyval) (σ : sys) (e : exn).

(** X13: whenever [run_agent_graph] returns, the first three nodes have
    returned a state, [generate_answer] has returned on it, and the value
    is the text of that last LLM call, a [str]: it is never [None], and
    the apology kept as a default is never what the entry point falls
    back to. *)
Theorem run_agent_graph_returns_llm_text question db_uri σ0 v σ :
  run_agent_graph question db_uri σ0 = (Return v, σ) ->
  exists s3 σ3 content,
    run_nodes [get_schema; generate_sql; execute_sql]
      (initial_state question db_uri) σ0 = (Return s3, σ3)
    /\ generate_answer s3 σ3 = (Return {[ "answer" := PStr content ]}, σ)
    /\ v = PStr content
    /\ invoke get_compiled_app (initial_state question db_uri) σ0
       = (Return (apply_update s3 {[ "answer" := PStr content ]}), σ).
Proof.
  intros H.
  destruct (run_agent_graph_returns_text _ _ _ _ _ H)
    as (s3 & σ3 & content & R & H4 & ->).
  exists s3, σ3, content. do 3 (split; [done|]).
  by rewrite invoke_after_three, R, run_bind, H4.
Qed.

End EntryPoint.

(** ** Further concrete runs *)

Lemma get_schema_never_raises_witness :
  (get_schema (E:=scripted) {[ "question" := PStr "How many users?" ]}
     (boot all_good)).1
  = Return {[ "error" := PStr ("Error getting schema: "
                               ++ Str.squote ++ "db_uri" ++ Str.squote) ]}.
Proof.
  rewrite (proj2 (get_schema_never_raises (E:=scripted)
                    {[ "question" := PStr "How many users?" ]} (boot all_good)));
    [reflexivity|by vm_compute].
Defined.

Lemma execute_sql_missing_query_witness :
  (execute_sql (E:=scripted) {[ "db_uri" := PStr "db" ]} (boot refused)).1
  = Raise (KeyError "sql_query")
  /\ (execute_sql (E:=scripted) {[ "db_uri" := PStr "db" ]} (boot all_good)).1
     = Raise (KeyError "sql_query").
Proof.
  split.
  - destruct (execute_sql_missing_query (E:=scripted)
                {[ "db_uri" := PStr "db" ]} (boot refused)) as [σ' ->];
      [by vm_compute..|reflexivity].
  - destruct (execute_sql_missing_query (E:=scripted)
                {[ "db_uri" := PStr "db" ]} (boot all_good)) as [σ' ->];
      [by vm_compute..|reflexivity].
Defined.

Lemma inputs_are_preserved_witness :
  exists final σ,
    run_nodes (E:=scripted) pipeline_nodes
      (initial_state "How many users?" "db") (boot all_good)
    = (Return final, σ)
    /\ final !! "question" = Some (PStr "How many users?")
    /\ final !! "db_uri" = Some (PStr "db").
Proof.
  pose (r := run_nodes (E:=scripted) pipeline_nodes
               (initial_state "How many users?" "db") (boot all_good)).
  exists match r.1 with Return s => s | Raise _ => ∅ end, r.2.
  assert (R : run_nodes (E:=scripted) pipeline_nodes
                (initial_state "How many users?" "db") (boot all_good)
              = (Return match r.1 with Return s => s | Raise _ => ∅ end, r.2))
    by (vm_compute; reflexivity).
  split; [exact R|].
  destruct (inputs_are_preserved (E:=scripted) pipeline_nodes _ _ _ _
              ltac:(repeat constructor; set_solver) R) as [Hq Hd].
  split; (etransitivity; [eassumption|by vm_compute]).
Defined.

Lemma error_stops_external_calls_witness :
  outside (run_nodes (E:=scripted) [get_schema; generate_sql; execute_sql]
             (initial_state "How many users?" "db") (boot refused)).2
  = refused
  /\ outside (run_nodes (E:=scripted) [get_schema; generate_sql; execute_sql]
                (initial_state "How many users?" "db") (boot llm_down)).2
     = (next_reply llm_down).2.
Proof.
  split.
  - rewrite (proj1 (error_stops_external_calls (E:=scripted)
                      "How many users?" "db" (boot refused))
               (Error "connection refused")
               (logged "---(Node: get_schema)---" (boot refused)));
      [reflexivity|by vm_compute].
  - rewrite (proj2 (error_stops_external_calls (E:=scripted)
                      "How many users?" "db" (boot llm_down))
               "CREATE TABLE users (id INTEGER)"
               (logged "---(Node: get_schema)---" (boot llm_down))
               tt (llm_down : world scripted)
               (Error "rate limit")
               {| outside := ((next_reply llm_down).2 : world scripted);
                  stdout := ["---(Node: get_schema)---";
                             "---(Node: generate_sql)---"] |});
      [reflexivity|by vm_compute..].
Defined.


Lemma run_agent_graph_returns_llm_text_witness :
  run_agent_graph (E:=scripted) "How many users?" "db" (boot all_good)
  = (Return (PStr "There are 3 users."),
     (run_agent_graph (E:=scripted) "How many users?" "db" (boot all_good)).2)
  /\ exists s3 σ3,
      generate_answer (E:=scripted) s3 σ3
      = (Return {[ "answer" := PStr "There are 3 users." ]},
         (run_agent_graph (E:=scripted) "How many users?" "db"
            (boot all_good)).2).
Proof.
  assert (R : run_agent_graph (E:=scripted) "How many users?" "db"
                (boot all_good)
              = (Return (PStr "There are 3 users."),
                 (run_agent_graph (E:=scripted) "How many users?" "db"
                    (boot all_good)).2))
    by (vm_compute; reflexivity).
  split; [exact R|].
  destruct (run_agent_graph_returns_llm_text (E:=scripted) _ _ _ _ _ R)
    as (s3 & σ3 & content & _ & H4 & Hc & _).
  injection Hc as <-. by exists s3, σ3.
Defined.
